(** * 3dafy: an image extruded into a textured box, previewed and exported

    A shallow embedding of [src/index.jsx].  The program is a single
    page: [App] holds four pieces of state (the uploaded image's object
    URL, the extrusion depth, the side colour and the back mode),
    [ExtrudedImageBox] shows the box with six materials, and
    [handleDownload] builds the same box once more and hands it to the
    exporter.

    JavaScript objects have identity and some of them are mutated after
    they were handed out (a texture receives its image when the decode
    finishes), so textures live in an explicit heap and every material
    and texture that is constructed draws a fresh identifier.  The browser's event loop is a step function on
    a [World]: one step is one task run to completion. *)

From stdpp Require Import base option list gmap strings.
From Stdlib Require Import ZArith.

Local Open Scope string_scope.

(** ** The heap: textures, image requests in flight, object URLs *)

Module Three.

(** An object URL, as [URL.createObjectURL] returns it: a handle that
    differs from every handle given out before. *)
Definition Url := nat.

(** What an object URL stands for. *)
Inductive BlobData :=
| FileBlob (name : string) (bytes : list Z)
| OctetStream (bytes : list Z).

Inductive Filter := LinearMipmapLinearFilter | LinearFilter.

(** A [THREE.Texture].  [tex_image] is empty until the image request
    that [TextureLoader.load] started has completed. *)
Record Texture := mkTexture {
  tex_src : Url;
  tex_image : option Url;
  tex_minFilter : Filter
}.

(** The [onLoad] argument of [TextureLoader.load].  The program has two
    call shapes: the effect of [ExtrudedImageBox] passes the closure
    that stores the texture in the component's ref, [handleDownload]
    passes nothing. *)
Inductive OnLoad := StoreInRef | NoCallback.

Record Heap := mkHeap {
  next_obj : nat;
  textures : gmap nat Texture;
  loading : list (nat * OnLoad);
  next_url : Url;
  object_urls : gmap nat BlobData
}.

Definition empty_heap : Heap := mkHeap 0 ∅ [] 0 ∅.

(** The parameters a [THREE.MeshStandardMaterial] is built from.  A
    colour that is not passed is [None] (the library then takes its own
    default); [mat_map] is the texture the material refers to. *)
Record Descriptor := mkDescriptor {
  mat_color : option string;
  mat_map : option nat
}.

(** A material object: its identity and its parameters. *)
Record MeshStandardMaterial := mkMaterial {
  mat_id : nat;
  descriptor : Descriptor
}.

#[global] Instance Descriptor_eq_dec : EqDecision Descriptor.
Proof. solve_decision. Defined.

#[global] Instance Material_eq_dec : EqDecision MeshStandardMaterial.
Proof. solve_decision. Defined.

(** [{ color: c }]: a flat colour, no texture. *)
Definition flat (c : string) : Descriptor := mkDescriptor (Some c) None.

(** *** Heap-passing computations *)

Definition M (A : Type) : Type := Heap → A * Heap.

Definition ret {A} (a : A) : M A := λ h, (a, h).
Definition bind {A B} (c : M A) (k : A → M B) : M B :=
  λ h, let (a, h') := c h in k a h'.

(** The identity of the next object. *)
Definition fresh : M nat :=
  λ h, (next_obj h,
        mkHeap (S (next_obj h)) (textures h) (loading h) (next_url h) (object_urls h)).

(** [new THREE.MeshStandardMaterial(params)] *)
Definition newMaterial (d : Descriptor) : M MeshStandardMaterial :=
  bind fresh (λ i, ret (mkMaterial i d)).

(** [new THREE.TextureLoader().load(url, onLoad)]: the texture object is
    returned at once, without an image; the request is in flight. *)
Definition textureLoad (url : Url) (cb : OnLoad) : M nat :=
  bind fresh (λ t h,
    (t, mkHeap (next_obj h)
               (<[t := mkTexture url None LinearMipmapLinearFilter]> (textures h))
               (loading h ++ [(t, cb)])
               (next_url h) (object_urls h))).

(** [URL.createObjectURL(blob)] *)
Definition createObjectURL (b : BlobData) : M Url :=
  λ h, (next_url h,
        mkHeap (next_obj h) (textures h) (loading h)
               (S (next_url h)) (<[next_url h := b]> (object_urls h))).

(** Whether texture [t] has received its image. *)
Definition loaded (h : Heap) (t : nat) : bool :=
  match textures h !! t with
  | Some tex => bool_decide (is_Some (tex_image tex))
  | None => false
  end.

End Three.

Import Three.

Notation "'let*' x ':=' c 'in' k" := (bind c (λ x, k))
  (at level 10, x name, c at level 200, k at level 200, only parsing).

(** ** The six face slots *)

(** The material array of a box mesh is indexed by face, in the order the
    source writes it: [right, left, top, bottom, front, back]. *)
Inductive Face := FRight | FLeft | FTop | FBottom | FFront | FBack.

Definition slot (f : Face) : nat :=
  match f with
  | FRight => 0 | FLeft => 1 | FTop => 2 | FBottom => 3 | FFront => 4 | FBack => 5
  end.

Definition faces : list Face := [FRight; FLeft; FTop; FBottom; FFront; FBack].

(** The material, and the descriptor, in a face's slot of an array. *)
Definition material_of (ms : list MeshStandardMaterial) (f : Face) : option MeshStandardMaterial :=
  ms !! slot f.

Definition descriptor_of (ms : list MeshStandardMaterial) (f : Face) : option Descriptor :=
  descriptor <$> material_of ms f.

Definition descriptors (ms : list MeshStandardMaterial) : list Descriptor :=
  descriptor <$> ms.

(** ** [ExtrudedImageBox]: the material array of the preview *)

(** The body of the [useMemo] callback.  [texture_current] is the value of
    [texture.current] when the callback runs: empty until a load has
    completed. *)
Definition previewMaterials (texture_current : option nat) (sideColor backMode : string)
  : M (list MeshStandardMaterial) :=
  let* colorMat := newMaterial (flat sideColor) in
  let* frontMat := match texture_current with
                   | Some t => newMaterial (mkDescriptor None (Some t))
                   | None => newMaterial (flat "#fff")
                   end in
  let* backMat := match decide (backMode = "image"), texture_current with
                  | left _, Some t => newMaterial (mkDescriptor None (Some t))
                  | _, _ => newMaterial (flat sideColor)
                  end in
  ret [colorMat; colorMat; colorMat; colorMat; frontMat; backMat].

(** ** [handleDownload]: the material array of the exported mesh *)

(** [new THREE.MeshStandardMaterial({ map: imageUrl ? load(imageUrl) : null,
    color: imageUrl ? "#fff" : "#fff" })] *)
Definition exportImageMaterial (imageUrl : option Url) : M MeshStandardMaterial :=
  match imageUrl with
  | Some u => let* t := textureLoad u NoCallback in
              newMaterial (mkDescriptor (Some "#fff") (Some t))
  | None => newMaterial (mkDescriptor (Some "#fff") None)
  end.

(** The array literal passed to [new THREE.Mesh]: its elements are
    evaluated from left to right, each side slot by a [new] of its own, the
    front and in image mode the back by a texture request of their own. *)
Definition exportMaterials (imageUrl : option Url) (sideColor backMode : string)
  : M (list MeshStandardMaterial) :=
  let* m0 := newMaterial (flat sideColor) in
  let* m1 := newMaterial (flat sideColor) in
  let* m2 := newMaterial (flat sideColor) in
  let* m3 := newMaterial (flat sideColor) in
  let* m4 := exportImageMaterial imageUrl in
  let* m5 := (if decide (backMode = "image")
              then exportImageMaterial imageUrl
              else newMaterial (flat sideColor)) in
  ret [m0; m1; m2; m3; m4; m5].

(** ** [App] state and the mounted [ExtrudedImageBox] *)

(** The four [useState] cells of [App].  The slider delivers the depth in
    steps of 0.01; [extrusion] counts hundredths. *)
Record AppState := mkApp {
  imageUrl : option Url;
  extrusion : Z;
  sideColor : string;
  backMode : string
}.

Definition initial_app : AppState := mkApp None 20 "#2196f3" "image".

(** The hooks of the one [ExtrudedImageBox] instance: the [texture] ref,
    the [image] the effect last ran for, and the dependencies and value of
    [useMemo]. *)
Record BoxInstance := mkBox {
  texture_current : option nat;
  effect_image : Url;
  memo_deps : option nat * string * string;
  materials : list MeshStandardMaterial
}.

Record BoxGeometry := mkBoxGeometry { width : Z; height : Z; depth : Z }.

Record Mesh := mkMesh {
  geometry : BoxGeometry;
  mesh_materials : list MeshStandardMaterial
}.

Definition Scene := list Mesh.

(** One call of [exporter.parse]: the scene it received and the heap as
    it was when the call was made. *)
Record ParseCall := mkParseCall { pc_scene : Scene; pc_heap : Heap }.

(** What the exporter passes to its completion callback: a binary buffer,
    or a document the callback stringifies (given as the bytes of the
    string). *)
Inductive ExportOutput :=
| ArrayBuffer (bytes : list Z)
| JsonValue (stringified : list Z).

(** A click on the anchor the callback creates: file name and [href]. *)
Record Download := mkDownload { dl_name : string; dl_href : Url }.

Record File := mkFile { file_name : string; file_bytes : list Z }.

Record World := mkWorld {
  app : AppState;
  box : option BoxInstance;
  heap : Heap;
  parse_calls : list ParseCall;
  awaiting : nat;
  downloads : list Download
}.

Definition initial_world : World := mkWorld initial_app None empty_heap [] 0 [].

(** *** Rendering *)

(** One render of [ExtrudedImageBox] with [image = u], followed by its
    effect.  [useMemo] recomputes when a dependency differs from the last
    render's; the effect runs on mount and whenever [image] differs.  It
    has no cleanup. *)
Definition renderBox (a : AppState) (u : Url) (b : option BoxInstance) : M BoxInstance :=
  match b with
  | None =>
      let* ms := previewMaterials None (sideColor a) (backMode a) in
      let* _ := textureLoad u StoreInRef in
      ret (mkBox None u (None, sideColor a, backMode a) ms)
  | Some b =>
      let deps := (texture_current b, sideColor a, backMode a) in
      let* ms := (if decide (deps = memo_deps b) then ret (materials b)
                  else previewMaterials (texture_current b) (sideColor a) (backMode a)) in
      let* _ := (if decide (u = effect_image b) then ret 0
                 else textureLoad u StoreInRef) in
      ret (mkBox (texture_current b) u deps ms)
  end.

(** A state setter followed by the re-render of [App]: the box is part of
    the tree only while [imageUrl] is set. *)
Definition rerender (a : AppState) (w : World) : World :=
  match imageUrl a with
  | Some u =>
      let (b, h) := renderBox a u (box w) (heap w) in
      mkWorld a (Some b) h (parse_calls w) (awaiting w) (downloads w)
  | None => mkWorld a (box w) (heap w) (parse_calls w) (awaiting w) (downloads w)
  end.

(** *** Handlers *)

(** [handleFile]: [e.target.files[0]] is undefined when the list is empty. *)
Definition handleFile (files : list File) (w : World) : World :=
  match files with
  | f :: _ =>
      let (u, h) := createObjectURL (FileBlob (file_name f) (file_bytes f)) (heap w) in
      let a := app w in
      rerender (mkApp (Some u) (extrusion a) (sideColor a) (backMode a))
               (mkWorld a (box w) h (parse_calls w) (awaiting w) (downloads w))
  | [] => w
  end.

(** [handleDownload] up to and including the call of [exporter.parse]. *)
Definition handleDownload (w : World) : World :=
  let a := app w in
  let (ms, h) := exportMaterials (imageUrl a) (sideColor a) (backMode a) (heap w) in
  let scene := [mkMesh (mkBoxGeometry 100 100 (extrusion a)) ms] in
  mkWorld a (box w) h (parse_calls w ++ [mkParseCall scene h])
          (S (awaiting w)) (downloads w).

(** The completion callback passed to [exporter.parse]. *)
Definition onParsed (gltf : ExportOutput) (w : World) : World :=
  let content := match gltf with
                 | ArrayBuffer bytes => bytes
                 | JsonValue stringified => stringified
                 end in
  let (url, h) := createObjectURL (OctetStream content) (heap w) in
  mkWorld (app w) (box w) h (parse_calls w) (awaiting w)
          (downloads w ++ [mkDownload "extruded-image.glb" url]).

(** The [onLoad] closure of the effect: [tex.minFilter = LinearFilter;
    texture.current = tex]. *)
Definition storeInRef (t : nat) (w : World) : World :=
  let h := heap w in
  let h' := mkHeap (next_obj h)
                   (alter (λ tex, mkTexture (tex_src tex) (tex_image tex) LinearFilter) t (textures h))
                   (loading h) (next_url h) (object_urls h) in
  mkWorld (app w)
          ((λ b, mkBox (Some t) (effect_image b) (memo_deps b) (materials b)) <$> box w)
          h' (parse_calls w) (awaiting w) (downloads w).

(** The callback registered with the request of texture [t], if that
    request is still in flight. *)
Fixpoint registered (t : nat) (queue : list (nat * OnLoad)) : option OnLoad :=
  match queue with
  | [] => None
  | (i, cb) :: queue => if decide (i = t) then Some cb else registered t queue
  end.

Definition request (h : Heap) (t : nat) : option OnLoad := registered t (loading h).

(** The image request of texture [t] leaves the queue; on success the
    texture receives its image. *)
Definition settle (ok : bool) (t : nat) (h : Heap) : Heap :=
  mkHeap (next_obj h)
         (if ok then alter (λ tex, mkTexture (tex_src tex) (Some (tex_src tex)) (tex_minFilter tex))
                           t (textures h)
          else textures h)
         (filter (λ p, p.1 ≠ t) (loading h))
         (next_url h) (object_urls h).

(** The world with its heap replaced. *)
Definition with_heap (h : Heap) (w : World) : World :=
  mkWorld (app w) (box w) h (parse_calls w) (awaiting w) (downloads w).

(** *** The event loop *)

(** The tasks the browser can run: the change events of the four inputs,
    a click on the download button, the completion or failure of an image
    request, and the exporter's completion. *)
Inductive Event :=
| ChangeFile (files : list File)
| ChangeExtrusion (v : Z)
| ChangeSideColor (c : string)
| ChangeBackMode (m : string)
| ClickDownload
| ImageLoaded (t : nat)
| ImageFailed (t : nat)
| ExportDone (gltf : ExportOutput).

(** One task.  A completion event for a request or an export that is not
    outstanding does nothing. *)
Definition step (e : Event) (w : World) : World :=
  let a := app w in
  match e with
  | ChangeFile files => handleFile files w
  | ChangeExtrusion v => rerender (mkApp (imageUrl a) v (sideColor a) (backMode a)) w
  | ChangeSideColor c => rerender (mkApp (imageUrl a) (extrusion a) c (backMode a)) w
  | ChangeBackMode m => rerender (mkApp (imageUrl a) (extrusion a) (sideColor a) m) w
  | ClickDownload =>
      (* the button is disabled while [imageUrl] is empty *)
      match imageUrl a with Some _ => handleDownload w | None => w end
  | ImageLoaded t =>
      match request (heap w) t with
      | Some StoreInRef => storeInRef t (with_heap (settle true t (heap w)) w)
      | Some NoCallback => with_heap (settle true t (heap w)) w
      | None => w
      end
  | ImageFailed t =>
      match request (heap w) t with
      | Some _ => with_heap (settle false t (heap w)) w
      | None => w
      end
  | ExportDone gltf =>
      match awaiting w with
      | S n => onParsed gltf (mkWorld a (box w) (heap w) (parse_calls w) n (downloads w))
      | O => w
      end
  end.

(** A sequence of tasks, run in order. *)
Definition run (es : list Event) (w : World) : World := foldl (λ w e, step e w) w es.

(** *** Observations on worlds *)

(** The textures a material array refers to, slot by slot. *)
Definition referenced_textures (ms : list MeshStandardMaterial) : list nat :=
  omap (λ m, mat_map (descriptor m)) ms.

Definition scene_textures (s : Scene) : list nat :=
  s ≫= λ mesh, referenced_textures (mesh_materials mesh).



(** The texture the preview currently shows, and whether it belongs to
    the image the application state names. *)
Definition active_texture (w : World) : option nat := box w ≫= texture_current.

Definition active_source (w : World) : option Url :=
  t ← active_texture w; tex_src <$> textures (heap w) !! t.

(** Every identifier at or above the counter is unused. *)
Definition urls_fresh (h : Heap) : Prop :=
  ∀ k : nat, (next_url h ≤ k)%nat → object_urls h !! k = None.

(** ** The material table of the specification *)

(** The table of the specification's material assigner, read as a
    function: four sides in the side colour, a textured front when a
    texture is present and flat white otherwise, a textured back in image
    mode with a texture and the side colour otherwise. *)
Definition MaterialAssigner_table (texture : option nat) (sideColor backMode : string)
  : list Descriptor :=
  let side := flat sideColor in
  let front := match texture with
               | Some t => mkDescriptor None (Some t)
               | None => flat "#fff"
               end in
  let back := match texture with
              | Some t => if decide (backMode = "image")
                          then mkDescriptor None (Some t) else side
              | None => side
              end in
  [side; side; side; side; front; back].

(** The fallback the specification promises when no texture is present. *)
Definition untextured_fallback (sideColor : string) (ms : list MeshStandardMaterial) : Prop :=
  descriptor_of ms FFront = Some (flat "#fff") ∧
  Forall (λ f, descriptor_of ms f = Some (flat sideColor))
         [FRight; FLeft; FTop; FBottom; FBack].

Definition side_faces : list Face := [FRight; FLeft; FTop; FBottom].

(** ** The binary container *)

Module Glb.





Section Container.
Variables magic jsonTag binTag : Z.



End Container.



End Glb.

(** ** Further observations and sample inputs *)

(** What the exporter finds when it is called: the front material of the
    one mesh refers to a texture, and every texture the scene refers to is
    without an image, its request still in flight. *)
Definition serialized_before_decode (pc : ParseCall) : Prop :=
  (∃ mesh m t, pc_scene pc = [mesh] ∧
               material_of (mesh_materials mesh) FFront = Some m ∧
               mat_map (descriptor m) = Some t) ∧
  Forall (λ t, loaded (pc_heap pc) t = false ∧ (t, NoCallback) ∈ loading (pc_heap pc))
         (scene_textures (pc_scene pc)).

(** The memoised array of a box instance is the table's row for the
    dependencies it was computed from. *)
Definition memo_consistent (b : BoxInstance) : Prop :=
  descriptors (materials b)
  = MaterialAssigner_table (memo_deps b).1.1 (memo_deps b).1.2 (memo_deps b).2.

(** A computation that neither creates nor removes object URLs. *)
Definition keeps_urls {A} (c : M A) : Prop :=
  ∀ h, next_url (c h).2 = next_url h ∧ object_urls (c h).2 = object_urls h.

(** Every object URL created so far is still in the store. *)
Definition nothing_released (h : Heap) : Prop :=
  urls_fresh h ∧ size (object_urls h) = next_url h.

(** A texture as [TextureLoader.load] returns it. *)
Definition pending_texture (u : Url) : Texture := mkTexture u None LinearMipmapLinearFilter.

Definition fileA : File := mkFile "a.png" [137; 80; 78; 71]%Z.
Definition fileB : File := mkFile "b.jpg" [255; 216; 255]%Z.

(** Two small payloads: the text of an empty document and five bytes. *)
Definition sample_json : list Z := [123; 125]%Z.


(** An exporter call as [handleDownload] makes it: one box mesh whose
    material array was built for an image. *)
Definition built_with_image (pc : ParseCall) : Prop :=
  ∃ u sc bm h d,
    pc_scene pc = [mkMesh (mkBoxGeometry 100 100 d) (exportMaterials (Some u) sc bm h).1].

(** A 12-byte buffer whose length field says 99. *)
Definition short_buffer : list Z := [103; 108; 84; 70; 2; 0; 0; 0; 99; 0; 0; 0]%Z.

(** Splits a statement about a list of faces into one goal per face. *)
Ltac each_face :=
  unfold side_faces, faces;
  repeat (apply Forall_cons; split); try apply Forall_nil_2.

(** ** Well-formed heaps and worlds *)

(** The object URL stands for an uploaded file. *)
Definition is_file_url (h : Heap) (u : Url) : Prop :=
  ∃ name bytes, object_urls h !! u = Some (FileBlob name bytes).

(** What the program keeps true of the heap: no object URL is gone,
    every texture was requested for an uploaded file, and a texture whose
    request is in flight exists and has no image. *)
Record heap_ok (h : Heap) : Prop := mk_heap_ok {
  ok_urls : nothing_released h;
  ok_textures : ∀ t tex, textures h !! t = Some tex →
                (t < next_obj h)%nat ∧ is_file_url h (tex_src tex);
  ok_loading : ∀ t cb, (t, cb) ∈ loading h →
               ∃ tex, textures h !! t = Some tex ∧ tex_image tex = None
}.

(** The heaps a render or an export can reach from [h]: any number of
    materials constructed, and texture requests for the image [u] only;
    with no image, no request at all. *)
Inductive grows (u : option Url) : Heap → Heap → Prop :=
| grows_refl h : grows u h h
| grows_material h h' d : grows u h h' → grows u h (newMaterial d h').2
| grows_texture h h' x cb : u = Some x → grows u h h' → grows u h (textureLoad x cb h').2.

(** A download carries the fixed file name and its link leads to binary
    content in the URL store. *)
Definition download_ok (h : Heap) (d : Download) : Prop :=
  dl_name d = "extruded-image.glb" ∧
  ∃ bytes, object_urls h !! dl_href d = Some (OctetStream bytes).

(** What the program keeps true of the world. *)
Record world_ok (w : World) : Prop := mk_world_ok {
  wok_heap : heap_ok (heap w);
  wok_image : ∀ u, imageUrl (app w) = Some u → is_file_url (heap w) u;
  wok_box : match box w, imageUrl (app w) with
            | Some b, Some u => effect_image b = u
            | None, None => True
            | _, _ => False
            end;
  wok_memo : ∀ b, box w = Some b →
             memo_consistent b ∧
             (memo_deps b).1.2 = sideColor (app w) ∧
             (memo_deps b).2 = backMode (app w);
  wok_ref : ∀ b t, box w = Some b → texture_current b = Some t →
            loaded (heap w) t = true;
  wok_memo_texture : ∀ b t, box w = Some b → (memo_deps b).1.1 = Some t →
                     loaded (heap w) t = true;
  wok_downloads : Forall (download_ok (heap w)) (downloads w)
}.

(** The texture in the preview's ref is sampled with the linear filter. *)
Definition ref_filtered (w : World) : Prop :=
  ∀ t tex, active_texture w = Some t → textures (heap w) !! t = Some tex →
           tex_minFilter tex = LinearFilter.

(** The change events that carry a file. *)
Definition is_upload (e : Event) : bool :=
  match e with
  | ChangeFile (_ :: _) => true
  | _ => false
  end.

Definition uploads (es : list Event) : nat := length (filter (λ e, is_upload e = true) es).

(** * Properties *)

(** ** Material arrays *)

Lemma previewMaterials_run tex sc bm h :
  ∃ c f b, (previewMaterials tex sc bm h).1 = [c; c; c; c; f; b] ∧
           mat_id c = next_obj h ∧ mat_id f = S (next_obj h) ∧
           mat_id b = S (S (next_obj h)) ∧
           descriptor <$> [c; c; c; c; f; b] = MaterialAssigner_table tex sc bm ∧
           next_obj (previewMaterials tex sc bm h).2 = 3 + next_obj h.
Proof.
  unfold previewMaterials, MaterialAssigner_table.
  destruct tex as [t|]; destruct (decide (bm = "image")); cbn;
    eexists _, _, _; repeat split; reflexivity.
Qed.

Lemma previewMaterials_descriptors tex sc bm h :
  descriptors (previewMaterials tex sc bm h).1 = MaterialAssigner_table tex sc bm.
Proof.
  destruct (previewMaterials_run tex sc bm h) as (c & f & b & -> & _ & _ & _ & Hd & _).
  exact Hd.
Qed.

(** The export array, written out: four sides, then the front with its own
    freshly requested texture, then the back. *)
Lemma exportMaterials_descriptors url sc bm h :
  descriptors (exportMaterials url sc bm h).1 =
    let n := next_obj h in
    let image k := mkDescriptor (Some "#fff") ((λ _, k) <$> url) in
    [flat sc; flat sc; flat sc; flat sc; image (4 + n);
     if decide (bm = "image")
     then image (match url with Some _ => 6 + n | None => 5 + n end)
     else flat sc].
Proof.
  unfold exportMaterials, exportImageMaterial.
  destruct url as [u|]; destruct (decide (bm = "image")); reflexivity.
Qed.

Lemma descriptor_of_descriptors ms f :
  descriptor_of ms f = descriptors ms !! slot f.
Proof. unfold descriptor_of, material_of, descriptors. by rewrite list_lookup_fmap. Qed.

Lemma remove_dups_cons_dup {A} `{EqDecision A} (x : A) l :
  x ∈ l → remove_dups (x :: l) = remove_dups l.
Proof. intros Hx. cbn [remove_dups]. by case_match. Qed.

Lemma remove_dups_cons_new {A} `{EqDecision A} (x : A) l :
  x ∉ l → remove_dups (x :: l) = x :: remove_dups l.
Proof. intros Hx. cbn [remove_dups]. by case_match. Qed.

(** Four equal sides, a front that differs from them and a back equal to
    the sides: two distinct entries. *)
Lemma remove_dups_box {A} `{EqDecision A} (a f : A) :
  a ≠ f → remove_dups [a; a; a; a; f; a] = [f; a].
Proof.
  intros Hne.
  rewrite !(remove_dups_cons_dup a) by repeat constructor.
  rewrite (remove_dups_cons_new f [a]); [reflexivity|].
  rewrite elem_of_cons, elem_of_nil. intros [?|[]]. congruence.
Qed.

Lemma exportMaterials_length url sc bm h : length (exportMaterials url sc bm h).1 = 6.
Proof.
  rewrite <- (length_fmap descriptor). fold (descriptors (exportMaterials url sc bm h).1).
  by rewrite exportMaterials_descriptors.
Qed.

Lemma previewMaterials_length tex sc bm h : length (previewMaterials tex sc bm h).1 = 6.
Proof.
  rewrite <- (length_fmap descriptor). fold (descriptors (previewMaterials tex sc bm h).1).
  rewrite previewMaterials_descriptors. reflexivity.
Qed.

(** In the preview the four side slots hold one and the same object. *)
Lemma preview_sides_one_object tex sc bm h :
  Forall (λ f, material_of (previewMaterials tex sc bm h).1 f
               = material_of (previewMaterials tex sc bm h).1 FRight) side_faces.
Proof.
  destruct (previewMaterials_run tex sc bm h) as (c & f & b & -> & _).
  repeat constructor.
Qed.

(** In the export every slot holds an object of its own. *)
Remark export_slots_separate_objects url sc bm h :
  NoDup (mat_id <$> (exportMaterials url sc bm h).1).
Proof.
  unfold exportMaterials, exportImageMaterial.
  destruct url as [u|]; destruct (decide (bm = "image")); cbn;
    repeat (apply NoDup_cons; split;
            [rewrite ?elem_of_cons, elem_of_nil; lia|]);
    apply NoDup_nil_2.
Qed.

(** C4. With [backMode = "color"] the back descriptor is the side
    descriptor, flat in the side colour, in the preview array and in the
    array of the exported mesh alike, whatever the texture or image. *)
Theorem back_is_side_in_color_mode (tex : option nat) (url : option Url) (sc : string) (h : Heap) :
  let preview := (previewMaterials tex sc "color" h).1 in
  let export := (exportMaterials url sc "color" h).1 in
  descriptor_of preview FBack = Some (flat sc) ∧
  Forall (λ f, descriptor_of preview FBack = descriptor_of preview f) side_faces ∧
  descriptor_of export FBack = Some (flat sc) ∧
  Forall (λ f, descriptor_of export FBack = descriptor_of export f) side_faces.
Proof.
  intros preview export. subst preview export.
  repeat split; each_face;
    rewrite !descriptor_of_descriptors,
      ?previewMaterials_descriptors, ?exportMaterials_descriptors;
    destruct tex; reflexivity.
Qed.

(** C6. In the preview array and in the export array the right, left,
    top and bottom descriptors are one descriptor, flat in the side
    colour; in the preview they are one object.  With a texture and the
    back in colour mode the six slots carry exactly two distinct
    descriptors, the textured front and the side descriptor. *)
Theorem sides_share_one_descriptor (tex : option nat) (url : option Url) (sc bm : string) (h : Heap) :
  let preview := (previewMaterials tex sc bm h).1 in
  let export := (exportMaterials url sc bm h).1 in
  Forall (λ f, descriptor_of preview f = Some (flat sc)) side_faces ∧
  Forall (λ f, descriptor_of export f = Some (flat sc)) side_faces ∧
  Forall (λ f, material_of preview f = material_of preview FRight) side_faces ∧
  (∀ t, length (remove_dups (descriptors (previewMaterials (Some t) sc "color" h).1)) = 2) ∧
  (∀ u, length (remove_dups (descriptors (exportMaterials (Some u) sc "color" h).1)) = 2).
Proof.
  intros preview export. subst preview export.
  split; [|split; [|split; [|split]]].
  - each_face; rewrite descriptor_of_descriptors, previewMaterials_descriptors;
      reflexivity.
  - each_face; rewrite descriptor_of_descriptors, exportMaterials_descriptors;
      reflexivity.
  - apply preview_sides_one_object.
  - intros t. rewrite previewMaterials_descriptors.
    change (MaterialAssigner_table (Some t) sc "color")
      with [flat sc; flat sc; flat sc; flat sc; mkDescriptor None (Some t); flat sc].
    rewrite remove_dups_box; [reflexivity|]. unfold flat. congruence.
  - intros u. rewrite exportMaterials_descriptors.
    change (length (remove_dups
              [flat sc; flat sc; flat sc; flat sc;
               mkDescriptor (Some "#fff") (Some (4 + next_obj h)); flat sc]) = 2).
    rewrite remove_dups_box; [reflexivity|]. unfold flat. congruence.
Qed.

(** C7. The descriptor array is a function of the three inputs alone:
    two runs with the same texture, side colour and back mode, started in
    whatever heaps, return the same six descriptors, those of the
    specification's table. *)
Theorem preview_descriptors_deterministic (tex : option nat) (sc bm : string) (h1 h2 : Heap) :
  descriptors (previewMaterials tex sc bm h1).1 = descriptors (previewMaterials tex sc bm h2).1 ∧
  descriptors (previewMaterials tex sc bm h1).1 = MaterialAssigner_table tex sc bm ∧
  length (descriptors (previewMaterials tex sc bm h1).1) = 6.
Proof.
  rewrite !previewMaterials_descriptors. repeat split.
Qed.

(** While no dependency changes, a re-render hands back the memoised
    array itself. *)
Lemma useMemo_reuses a u b h :
  memo_deps b = (texture_current b, sideColor a, backMode a) →
  materials (renderBox a u (Some b) h).1 = materials b.
Proof.
  intros Hdeps. unfold renderBox. rewrite decide_True by done.
  cbn. destruct (decide (u = effect_image b)); reflexivity.
Qed.

(** ** The export array and its textures *)

Lemma referenced_textures_descriptors ms :
  referenced_textures ms = omap mat_map (descriptors ms).
Proof.
  unfold referenced_textures, descriptors.
  induction ms as [|m ms IH]; [reflexivity|].
  cbn. rewrite IH. reflexivity.
Qed.

Lemma exportMaterials_image_mode u sc h :
  let n := next_obj h in
  (exportMaterials (Some u) sc "image" h).2 =
    mkHeap (8 + n)
           (<[6 + n := pending_texture u]> (<[4 + n := pending_texture u]> (textures h)))
           ((loading h ++ [(4 + n, NoCallback)]) ++ [(6 + n, NoCallback)])
           (next_url h) (object_urls h).
Proof. reflexivity. Qed.

Lemma exportMaterials_other_mode u sc bm h :
  bm ≠ "image" →
  let n := next_obj h in
  (exportMaterials (Some u) sc bm h).2 =
    mkHeap (7 + n) (<[4 + n := pending_texture u]> (textures h))
           (loading h ++ [(4 + n, NoCallback)]) (next_url h) (object_urls h).
Proof.
  intros Hbm. unfold exportMaterials.
  destruct (decide (bm = "image")) as [e|_]; [destruct (Hbm e)|reflexivity].
Qed.

Lemma exportMaterials_textures u sc bm h :
  referenced_textures (exportMaterials (Some u) sc bm h).1 =
    if decide (bm = "image") then [4 + next_obj h; 6 + next_obj h] else [4 + next_obj h].
Proof.
  unfold exportMaterials. destruct (decide (bm = "image")); reflexivity.
Qed.

(** Every texture the export array refers to was requested by this very
    call and has no image yet. *)
Lemma exportMaterials_unloaded u sc bm h :
  Forall (λ t, loaded (exportMaterials (Some u) sc bm h).2 t = false ∧
               (t, NoCallback) ∈ loading (exportMaterials (Some u) sc bm h).2)
         (referenced_textures (exportMaterials (Some u) sc bm h).1).
Proof.
  rewrite exportMaterials_textures.
  destruct (decide (bm = "image")) as [->|Hbm].
  - rewrite exportMaterials_image_mode. cbn zeta. unfold loaded. cbn [textures loading].
    repeat (apply Forall_cons; split); try apply Forall_nil_2; split.
    + rewrite lookup_insert_ne by lia. by rewrite lookup_insert_eq.
    + rewrite !elem_of_app, !elem_of_cons. tauto.
    + by rewrite lookup_insert_eq.
    + rewrite !elem_of_app, !elem_of_cons. tauto.
  - rewrite exportMaterials_other_mode by done. cbn zeta. unfold loaded. cbn [textures loading].
    repeat (apply Forall_cons; split); try apply Forall_nil_2; split.
    + by rewrite lookup_insert_eq.
    + rewrite !elem_of_app, !elem_of_cons. tauto.
Qed.

(** C3. In image mode with a texture, the preview's back descriptor is
    its front descriptor and both refer to the one texture.  The export
    array does not follow: its front and its back each request a texture
    of their own from the same URL, so the two descriptors differ and the
    scene refers to two textures. *)
Theorem export_back_is_second_texture (t : nat) (u : Url) (sc : string) (h : Heap) :
  let preview := (previewMaterials (Some t) sc "image" h).1 in
  let export := exportMaterials (Some u) sc "image" h in
  descriptor_of preview FBack = descriptor_of preview FFront ∧
  remove_dups (referenced_textures preview) = [t] ∧
  descriptor_of export.1 FFront = Some (mkDescriptor (Some "#fff") (Some (4 + next_obj h))) ∧
  descriptor_of export.1 FBack = Some (mkDescriptor (Some "#fff") (Some (6 + next_obj h))) ∧
  descriptor_of export.1 FBack ≠ descriptor_of export.1 FFront ∧
  length (remove_dups (referenced_textures export.1)) = 2 ∧
  tex_src <$> textures export.2 !! (4 + next_obj h) = Some u ∧
  tex_src <$> textures export.2 !! (6 + next_obj h) = Some u.
Proof.
  intros preview export. subst preview export.
  rewrite !descriptor_of_descriptors, previewMaterials_descriptors,
    exportMaterials_descriptors, exportMaterials_textures, exportMaterials_image_mode.
  cbn zeta. cbn [textures].
  split; [reflexivity|]. split.
  { rewrite referenced_textures_descriptors, previewMaterials_descriptors.
    change (remove_dups [t; t] = [t]).
    rewrite remove_dups_cons_dup by repeat constructor. reflexivity. }
  split; [reflexivity|]. split; [reflexivity|]. split.
  { cbn. intros [=]. lia. }
  split.
  { rewrite decide_True by done.
    rewrite remove_dups_cons_new; [reflexivity|].
    rewrite elem_of_cons, elem_of_nil. lia. }
  split.
  - rewrite lookup_insert_ne by lia. by rewrite lookup_insert_eq.
  - by rewrite lookup_insert_eq.
Qed.

(** ** Frame lemmas for the heap-passing computations *)

Lemma keeps_urls_ret {A} (a : A) : keeps_urls (ret a).
Proof. intros h. split; reflexivity. Qed.

Lemma keeps_urls_bind {A B} (c : M A) (k : A → M B) :
  keeps_urls c → (∀ a, keeps_urls (k a)) → keeps_urls (bind c k).
Proof.
  intros Hc Hk h. unfold bind.
  destruct (c h) as [a h'] eqn:E.
  destruct (Hc h) as [Hn Hu]. rewrite E in Hn, Hu. cbn in Hn, Hu.
  destruct (Hk a h') as [Hn' Hu']. split; congruence.
Qed.

Lemma keeps_urls_newMaterial d : keeps_urls (newMaterial d).
Proof. intros h. split; reflexivity. Qed.

Lemma keeps_urls_textureLoad u cb : keeps_urls (textureLoad u cb).
Proof. intros h. split; reflexivity. Qed.

Create HintDb frame discriminated.
#[local] Hint Resolve keeps_urls_ret keeps_urls_newMaterial keeps_urls_textureLoad : frame.
#[local] Hint Extern 2 (keeps_urls (bind _ _)) => apply keeps_urls_bind; [|intros ?] : frame.
#[local] Hint Extern 3 (keeps_urls (match ?x with _ => _ end)) => destruct x : frame.

Lemma keeps_urls_previewMaterials tex sc bm : keeps_urls (previewMaterials tex sc bm).
Proof. unfold previewMaterials. auto 20 with frame. Qed.

Lemma keeps_urls_exportMaterials url sc bm : keeps_urls (exportMaterials url sc bm).
Proof. unfold exportMaterials, exportImageMaterial. auto 20 with frame. Qed.

#[local] Hint Resolve keeps_urls_previewMaterials keeps_urls_exportMaterials : frame.

Lemma keeps_urls_renderBox a u b : keeps_urls (renderBox a u b).
Proof. unfold renderBox. auto 20 with frame. Qed.

(** ** Frame lemmas for the event loop *)

Lemma run_snoc es e w : run (es ++ [e]) w = step e (run es w).
Proof. unfold run. by rewrite foldl_app. Qed.

Lemma rerender_frame a w :
  app (rerender a w) = a ∧
  parse_calls (rerender a w) = parse_calls w ∧
  awaiting (rerender a w) = awaiting w ∧
  downloads (rerender a w) = downloads w ∧
  next_url (heap (rerender a w)) = next_url (heap w) ∧
  object_urls (heap (rerender a w)) = object_urls (heap w).
Proof.
  unfold rerender. destruct (imageUrl a) as [u|]; [|done].
  pose proof (keeps_urls_renderBox a u (box w) (heap w)) as Hk.
  destruct (renderBox a u (box w) (heap w)) as [b h]. cbn in *. tauto.
Qed.

(** A step leaves the URL store as it is or adds one entry under the next
    unused handle.  No step removes an entry. *)
Lemma step_urls e w :
  (next_url (heap (step e w)) = next_url (heap w) ∧
   object_urls (heap (step e w)) = object_urls (heap w)) ∨
  (∃ b, next_url (heap (step e w)) = S (next_url (heap w)) ∧
        object_urls (heap (step e w)) = <[next_url (heap w) := b]> (object_urls (heap w))).
Proof.
  destruct e as [[|f fs]| v | c | m | | t | t | gltf]; cbn [step handleFile].
  - by left.
  - right. eexists. unfold createObjectURL.
    match goal with |- context [rerender ?a ?w'] =>
      destruct (rerender_frame a w') as (_ & _ & _ & _ & Hn & Hu) end.
    rewrite Hn, Hu. split; reflexivity.
  - left. apply rerender_frame.
  - left. apply rerender_frame.
  - left. apply rerender_frame.
  - left. destruct (imageUrl (app w)) as [u|]; [|done].
    unfold handleDownload.
    pose proof (keeps_urls_exportMaterials (imageUrl (app w)) (sideColor (app w))
                  (backMode (app w)) (heap w)) as Hk.
    destruct (exportMaterials _ _ _ _) as [ms h]. exact Hk.
  - left. destruct (request (heap w) t) as [[|]|]; done.
  - left. destruct (request (heap w) t) as [cb|]; done.
  - destruct (awaiting w) as [|n]; [by left|].
    right. eexists. split; reflexivity.
Qed.

Lemma step_nothing_released e w :
  nothing_released (heap w) → nothing_released (heap (step e w)).
Proof.
  intros [Hfresh Hsize].
  destruct (step_urls e w) as [[Hn Hu]|(b & Hn & Hu)]; unfold nothing_released, urls_fresh;
    rewrite Hn, Hu.
  - done.
  - split.
    + intros k Hk. rewrite lookup_insert_ne by lia. apply Hfresh. lia.
    + rewrite map_size_insert_None by (apply Hfresh; lia). by rewrite Hsize.
Qed.

Lemma reachable_nothing_released es : nothing_released (heap (run es initial_world)).
Proof.
  induction es as [|e es IH] using rev_ind.
  - split; [intros k _; apply lookup_empty|reflexivity].
  - rewrite run_snoc. by apply step_nothing_released.
Qed.

Lemma registered_filter_ne t t' queue :
  t ≠ t' → registered t' (filter (λ p, p.1 ≠ t) queue) = registered t' queue.
Proof.
  intros Hne. induction queue as [|[i cb] queue IH]; [reflexivity|].
  rewrite filter_cons. cbn [fst registered].
  destruct (decide (i ≠ t)) as [Hi|Hi]; cbn [registered].
  - by rewrite IH.
  - destruct (decide (i = t')) as [->|_]; [|exact IH].
    destruct Hi. congruence.
Qed.

(** When the request of [t] completes and its callback is the effect's
    closure, [t] becomes the texture of the ref; the closure does not look
    at the image the component currently shows. *)
Lemma image_loaded_stores w b t :
  box w = Some b → request (heap w) t = Some StoreInRef →
  let w' := step (ImageLoaded t) w in
  active_texture w' = Some t ∧ app w' = app w ∧ is_Some (box w') ∧
  loading (heap w') = filter (λ p, p.1 ≠ t) (loading (heap w)) ∧
  (∀ t', tex_src <$> textures (heap w') !! t' = tex_src <$> textures (heap w) !! t').
Proof.
  intros Hb Hr. cbn [step]. rewrite Hr.
  unfold active_texture, storeInRef, with_heap. cbn. rewrite Hb. cbn.
  repeat split; [by eexists|].
  intros t'. destruct (decide (t = t')) as [->|Hne].
  - rewrite !lookup_alter_eq. destruct (textures (heap w) !! t'); reflexivity.
  - rewrite !lookup_alter_ne by done. reflexivity.
Qed.

(** ** Export and decoding *)

Lemma handleDownload_parse_call w u :
  imageUrl (app w) = Some u →
  ∃ pc : ParseCall, parse_calls (handleDownload w) = (parse_calls w ++ [pc])%list ∧
        serialized_before_decode pc.
Proof.
  intros Hu. unfold handleDownload. rewrite Hu.
  pose proof (exportMaterials_unloaded u (sideColor (app w)) (backMode (app w)) (heap w)) as Hun.
  pose proof (exportMaterials_descriptors (Some u) (sideColor (app w)) (backMode (app w)) (heap w))
    as Hd.
  destruct (exportMaterials _ _ _ _) as [ms h]. cbn [fst snd] in Hun, Hd.
  eexists. split; [reflexivity|]. split; cbn [pc_scene pc_heap].
  - assert (descriptors ms !! 4 =
              Some (mkDescriptor (Some "#fff") (Some (4 + next_obj (heap w))))) as H4
      by (rewrite Hd; reflexivity).
    unfold descriptors in H4. rewrite list_lookup_fmap in H4.
    apply fmap_Some in H4 as (m & Hm & Hdm).
    exists (mkMesh (mkBoxGeometry 100 100 (extrusion (app w))) ms), m, (4 + next_obj (heap w)).
    repeat split; [exact Hm|]. by rewrite <- Hdm.
  - unfold scene_textures. cbn. rewrite app_nil_r. exact Hun.
Qed.

(** C1, on the code.  A click on the enabled download button calls the
    exporter in the same task in which it requested the textures: the
    scene the exporter receives has a textured front material, and every
    texture it refers to is still without its image, the request in
    flight, whatever was decoded before.  The export does not wait. *)
Theorem export_does_not_wait (w : World) (u : Url) :
  imageUrl (app w) = Some u →
  ∃ pc : ParseCall, parse_calls (step ClickDownload w) = (parse_calls w ++ [pc])%list ∧
        serialized_before_decode pc.
Proof.
  intros Hu. cbn [step]. rewrite Hu. by apply handleDownload_parse_call with u.
Qed.

Lemma export_does_not_wait_witness :
  let w := run [ChangeFile [fileA]; ImageLoaded 3] initial_world in
  active_source w = Some 0 ∧ loaded (heap w) 3 = true ∧
  ∃ pc : ParseCall, parse_calls (step ClickDownload w) = (parse_calls w ++ [pc])%list ∧
        serialized_before_decode pc.
Proof.
  split; [reflexivity|]. split; [reflexivity|].
  apply (export_does_not_wait (run [ChangeFile [fileA]; ImageLoaded 3] initial_world) 0).
  reflexivity.
Defined.

Lemma step_parse_calls e w :
  parse_calls (step e w) = parse_calls w ∨
  ∃ pc : ParseCall, parse_calls (step e w) = (parse_calls w ++ [pc])%list ∧ serialized_before_decode pc.
Proof.
  destruct e as [[|f fs]| v | c | m | | t | t | gltf]; cbn [step handleFile];
    try (left; apply rerender_frame).
  - by left.
  - left. unfold createObjectURL.
    match goal with |- context [rerender ?a ?w'] =>
      destruct (rerender_frame a w') as (_ & Hp & _) end.
    exact Hp.
  - destruct (imageUrl (app w)) as [u|] eqn:Hu; [|by left].
    right. by apply handleDownload_parse_call with u.
  - left. destruct (request (heap w) t) as [[|]|]; done.
  - left. destruct (request (heap w) t) as [cb|]; done.
  - left. destruct (awaiting w) as [|n]; done.
Qed.

(** Every call of the exporter in every run was made before the decode. *)
Lemma every_export_before_decode es :
  Forall serialized_before_decode (parse_calls (run es initial_world)).
Proof.
  induction es as [|e es IH] using rev_ind; [constructor|].
  rewrite run_snoc.
  destruct (step_parse_calls e (run es initial_world)) as [->|(pc & -> & Hpc)]; [done|].
  apply Forall_app. split; [done|]. by constructor.
Qed.

(** ** Two loads in flight *)

(** C8 as stated fails: image A is uploaded, then image B; B's decode
    completes first and A's second.  The application names B, the preview
    holds A's texture, and nothing is in flight any more. *)
Lemma older_upload_overwrites_newer :
  let w := run [ChangeFile [fileA]; ChangeFile [fileB]; ImageLoaded 4; ImageLoaded 3]
               initial_world in
  loading (heap w) = [] ∧
  imageUrl (app w) = Some 1 ∧
  object_urls (heap w) !! 1 = Some (FileBlob "b.jpg" (file_bytes fileB)) ∧
  active_source w = Some 0 ∧
  object_urls (heap w) !! 0 = Some (FileBlob "a.png" (file_bytes fileA)).
Proof. vm_compute. repeat split. Qed.

(** C8, amended.  Nothing discards a stale result: when two requests of
    the preview are in flight and complete one after the other, the
    texture of the ref is the one whose request completed last, whichever
    upload it belongs to; the application state is not consulted and does
    not change. *)
Theorem last_completed_load_wins (w : World) (b : BoxInstance) (t1 t2 : nat) (tex : Texture) :
  box w = Some b →
  t1 ≠ t2 →
  request (heap w) t1 = Some StoreInRef →
  request (heap w) t2 = Some StoreInRef →
  textures (heap w) !! t2 = Some tex →
  let w' := run [ImageLoaded t1; ImageLoaded t2] w in
  active_texture w' = Some t2 ∧
  active_source w' = Some (tex_src tex) ∧
  app w' = app w.
Proof.
  intros Hb Hne H1 H2 Htex. cbn [run foldl].
  destruct (image_loaded_stores w b t1 Hb H1) as (_ & Happ1 & [b1 Hb1] & Hl1 & Hs1).
  assert (request (heap (step (ImageLoaded t1) w)) t2 = Some StoreInRef) as H2'.
  { unfold request. rewrite Hl1. by rewrite registered_filter_ne. }
  destruct (image_loaded_stores _ b1 t2 Hb1 H2') as (Hact & Happ2 & _ & _ & Hs2).
  cbn zeta in *. split; [exact Hact|]. split; [|congruence].
  unfold active_source. rewrite Hact. cbn.
  rewrite Hs2, Hs1, Htex. reflexivity.
Qed.

Lemma last_completed_load_wins_witness :
  let w := run [ChangeFile [fileA]; ChangeFile [fileB]] initial_world in
  let w' := run [ImageLoaded 4; ImageLoaded 3] w in
  active_texture w' = Some 3 ∧ active_source w' = Some 0 ∧ app w' = app w.
Proof.
  refine (last_completed_load_wins
            (run [ChangeFile [fileA]; ChangeFile [fileB]] initial_world)
            _ 4 3 (pending_texture 0) _ _ _ _ _).
  - vm_compute. reflexivity.
  - lia.
  - reflexivity.
  - reflexivity.
  - reflexivity.
Defined.

(** ** Object URLs *)

(** C9 as stated fails: after two uploads the first image's object URL is
    still in the store, next to the second's. *)
Lemma first_upload_url_still_live :
  let w := run [ChangeFile [fileA]; ChangeFile [fileB]] initial_world in
  imageUrl (app w) = Some 1 ∧
  object_urls (heap w) !! 0 = Some (FileBlob "a.png" (file_bytes fileA)) ∧
  size (object_urls (heap w)) = 2.
Proof. vm_compute. repeat split. Qed.

(** C9, amended.  The application refers to one image URL at a time and
    an upload replaces that reference by a fresh URL for the chosen file;
    no URL is ever released: a step keeps every entry of the URL store,
    and in every reachable world all URLs created so far are in it. *)
Theorem object_urls_never_released (es : list Event) (e : Event) (f : File) (fs : list File) :
  let w := run es initial_world in
  object_urls (heap w) ⊆ object_urls (heap (step e w)) ∧
  size (object_urls (heap w)) = next_url (heap w) ∧
  imageUrl (app (step (ChangeFile (f :: fs)) w)) = Some (next_url (heap w)) ∧
  object_urls (heap (step (ChangeFile (f :: fs)) w)) !! next_url (heap w)
    = Some (FileBlob (file_name f) (file_bytes f)).
Proof.
  intros w. destruct (reachable_nothing_released es) as [Hfresh Hsize]. fold w in Hfresh, Hsize.
  split; [|split; [exact Hsize|]].
  - destruct (step_urls e w) as [[_ ->]|(b & _ & ->)]; [done|].
    apply insert_subseteq, Hfresh. lia.
  - cbn [step handleFile]. unfold createObjectURL.
    match goal with |- context [rerender ?a ?w'] =>
      destruct (rerender_frame a w') as (Ha & _ & _ & _ & _ & Hu) end.
    rewrite Ha, Hu. cbn. split; [reflexivity|]. by rewrite lookup_insert_eq.
Qed.

(** ** The file input *)

(** C10. A change event without a file leaves the world as it is:
    application state, preview instance, heap, exporter calls and
    downloads. *)
Theorem no_file_changes_nothing (w : World) :
  handleFile [] w = w ∧ step (ChangeFile []) w = w.
Proof. split; reflexivity. Qed.

(** ** The container's length field *)












(** ** The arrays that are actually constructed *)

Lemma renderBox_memo_consistent a u b h :
  (∀ b0, b = Some b0 → memo_consistent b0) →
  memo_consistent (renderBox a u b h).1.
Proof.
  intros Hb. unfold renderBox, memo_consistent.
  destruct b as [b0|].
  - specialize (Hb b0 eq_refl). unfold memo_consistent in Hb.
    unfold descriptors in Hb |- *.
    destruct (decide ((texture_current b0, sideColor a, backMode a) = memo_deps b0))
      as [Heq|Hne].
    + unfold bind, ret.
      destruct (decide (u = effect_image b0)); cbn; rewrite Hb, <- Heq; reflexivity.
    + unfold bind.
      pose proof (previewMaterials_descriptors (texture_current b0) (sideColor a)
                    (backMode a) h) as Hd.
      destruct (previewMaterials _ _ _ h) as [ms h']. cbn in Hd.
      destruct (decide (u = effect_image b0)); cbn; exact Hd.
  - unfold bind.
    pose proof (previewMaterials_descriptors None (sideColor a) (backMode a) h) as Hd.
    destruct (previewMaterials _ _ _ h) as [ms h']. cbn in Hd. cbn. exact Hd.
Qed.

Lemma rerender_memo_consistent a w :
  (∀ b, box w = Some b → memo_consistent b) →
  ∀ b, box (rerender a w) = Some b → memo_consistent b.
Proof.
  intros Hw b. unfold rerender. destruct (imageUrl a) as [u|]; [|apply Hw].
  pose proof (renderBox_memo_consistent a u (box w) (heap w) Hw) as Hr.
  destruct (renderBox a u (box w) (heap w)) as [b' h']. cbn in *. congruence.
Qed.

Lemma step_memo_consistent e w :
  (∀ b, box w = Some b → memo_consistent b) →
  ∀ b, box (step e w) = Some b → memo_consistent b.
Proof.
  intros Hw.
  destruct e as [[|f fs]| v | c | m | | t | t | gltf]; cbn [step handleFile];
    try (apply rerender_memo_consistent; exact Hw).
  - exact Hw.
  - destruct (imageUrl (app w)); [|exact Hw].
    unfold handleDownload. destruct (exportMaterials _ _ _ _). exact Hw.
  - destruct (request (heap w) t) as [[|]|]; try exact Hw.
    unfold storeInRef, with_heap. cbn. intros b Hb.
    destruct (box w) as [b0|]; [|discriminate].
    injection Hb as <-. exact (Hw b0 eq_refl).
  - destruct (request (heap w) t); exact Hw.
  - destruct (awaiting w); exact Hw.
Qed.

(** In every run the preview's array is an array the table describes. *)
Lemma reachable_preview_follows_table es b :
  box (run es initial_world) = Some b → memo_consistent b.
Proof.
  revert b. induction es as [|e es IH] using rev_ind; [discriminate|].
  rewrite run_snoc. by apply step_memo_consistent.
Qed.

(** The scene handed to the exporter is one box mesh carrying the export
    array for the current application state. *)
Lemma handleDownload_scene w :
  parse_calls (handleDownload w) =
    (parse_calls w ++
     [mkParseCall
        [mkMesh (mkBoxGeometry 100 100 (extrusion (app w)))
                (exportMaterials (imageUrl (app w)) (sideColor (app w))
                                 (backMode (app w)) (heap w)).1]
        (exportMaterials (imageUrl (app w)) (sideColor (app w))
                         (backMode (app w)) (heap w)).2])%list.
Proof. unfold handleDownload. destruct (exportMaterials _ _ _ _). reflexivity. Qed.

Lemma step_parse_calls_image e w :
  parse_calls (step e w) = parse_calls w ∨
  ∃ pc : ParseCall, parse_calls (step e w) = (parse_calls w ++ [pc])%list ∧
                    built_with_image pc.
Proof.
  destruct e as [[|f fs]| v | c | m | | t | t | gltf]; cbn [step handleFile];
    try (left; apply rerender_frame).
  - by left.
  - left. unfold createObjectURL.
    match goal with |- context [rerender ?a ?w'] =>
      destruct (rerender_frame a w') as (_ & Hp & _) end.
    exact Hp.
  - destruct (imageUrl (app w)) as [u|] eqn:Hu; [|by left].
    right. eexists. split; [apply handleDownload_scene|].
    rewrite Hu. by eexists _, _, _, _, _.
  - left. destruct (request (heap w) t) as [[|]|]; done.
  - left. destruct (request (heap w) t) as [cb|]; done.
  - left. destruct (awaiting w) as [|n]; done.
Qed.

(** The export array is never built without an image: the button is
    disabled until one is set. *)
Lemma every_export_built_with_image es :
  Forall built_with_image (parse_calls (run es initial_world)).
Proof.
  induction es as [|e es IH] using rev_ind; [constructor|].
  rewrite run_snoc.
  destruct (step_parse_calls_image e (run es initial_world)) as [->|(pc & -> & Hpc)]; [done|].
  apply Forall_app. split; [done|]. by constructor.
Qed.

(** C5. For every texture or none, every side colour and every back
    mode, the preview's array has six slots with one defined material per
    face, in the order right, left, top, bottom, front, back, as the
    table gives them; without a texture the front is flat white and the
    other five slots are flat in the side colour.  The export array, which
    in every run is built with an image only, has six defined materials in
    the same order: four sides flat in the side colour, a textured front,
    and a back that is textured in image mode and flat in the side colour
    otherwise. *)
Theorem six_defined_materials (tex : option nat) (u : Url) (sc bm : string) (h : Heap)
    (es : list Event) :
  let preview := (previewMaterials tex sc bm h).1 in
  let export := (exportMaterials (Some u) sc bm h).1 in
  length preview = 6 ∧ length export = 6 ∧
  Forall (λ f, is_Some (material_of preview f) ∧ is_Some (material_of export f)) faces ∧
  descriptors preview = MaterialAssigner_table tex sc bm ∧
  untextured_fallback sc (previewMaterials None sc bm h).1 ∧
  descriptors export =
    [flat sc; flat sc; flat sc; flat sc;
     mkDescriptor (Some "#fff") (Some (4 + next_obj h));
     if decide (bm = "image")
     then mkDescriptor (Some "#fff") (Some (6 + next_obj h))
     else flat sc] ∧
  Forall built_with_image (parse_calls (run es initial_world)) ∧
  from_option (λ b, length (materials b) = 6) True (box (run es initial_world)).
Proof.
  intros preview export. subst preview export.
  pose proof (previewMaterials_length tex sc bm h) as Hp.
  pose proof (exportMaterials_length (Some u) sc bm h) as He.
  split; [exact Hp|]. split; [exact He|].
  split; [|split; [|split; [|split; [|split]]]].
  - each_face; split; apply lookup_lt_is_Some; cbn [slot]; lia.
  - apply previewMaterials_descriptors.
  - split; [|each_face];
      rewrite descriptor_of_descriptors, previewMaterials_descriptors; reflexivity.
  - rewrite exportMaterials_descriptors. cbn.
    destruct (decide (bm = "image")); reflexivity.
  - apply every_export_built_with_image.
  - destruct (box (run es initial_world)) as [b|] eqn:Hb; [|done]. cbn.
    pose proof (reachable_preview_follows_table es b Hb) as Hm.
    unfold memo_consistent in Hm.
    rewrite <- (length_fmap descriptor). fold (descriptors (materials b)).
    by rewrite Hm.
Qed.

(** Without an image the download button is disabled: a click does
    nothing. *)
Example scenario_A : step ClickDownload initial_world = initial_world.
Proof. reflexivity. Qed.

(** An image, side colour #2196f3, back in colour mode: once the preview
    has re-rendered with the decoded texture its array has two distinct
    descriptors, and so has the export array. *)
Example scenario_B :
  let w := run [ChangeFile [fileA]; ImageLoaded 3; ChangeExtrusion 30;
                ChangeBackMode "color"; ClickDownload] initial_world in
  (length ∘ remove_dups ∘ descriptors ∘ materials <$> box w) = Some 2 ∧
  (length ∘ remove_dups ∘ descriptors ∘ mesh_materials <$>
     (parse_calls w ≫= pc_scene)) = [2].
Proof. vm_compute. split; reflexivity. Qed.


(** * The rest of the program *)

(** ** Heaps that only grow *)

Lemma is_file_url_same h h' u :
  object_urls h' = object_urls h → is_file_url h u → is_file_url h' u.
Proof. unfold is_file_url. by intros ->. Qed.

Lemma grows_trans u h1 h2 h3 : grows u h1 h2 → grows u h2 h3 → grows u h1 h3.
Proof.
  intros H12 H23. induction H23 as [|h2 h3 d _ IH|h2 h3 x cb Hx _ IH].
  - exact H12.
  - apply grows_material, IH, H12.
  - apply grows_texture; [exact Hx|apply IH, H12].
Qed.

Lemma grows_weaken u h h' : grows None h h' → grows u h h'.
Proof.
  induction 1 as [|h h' d _ IH|h h' x cb Hx _ _]; [constructor| |discriminate].
  by apply grows_material.
Qed.

Lemma grows_bind {A B} u (c : M A) (k : A → M B) h :
  grows u h (c h).2 → (∀ a h', grows u h' (k a h').2) → grows u h (bind c k h).2.
Proof.
  intros Hc Hk. unfold bind. destruct (c h) as [a h']. cbn in Hc.
  by apply grows_trans with h'.
Qed.

Lemma grows_next_obj u h h' : grows u h h' → (next_obj h ≤ next_obj h')%nat.
Proof. induction 1; cbn in *; lia. Qed.

Lemma grows_urls u h h' :
  grows u h h' → next_url h' = next_url h ∧ object_urls h' = object_urls h.
Proof. induction 1; cbn in *; tauto. Qed.

(** Without an image nothing is requested: the textures and the queue of
    requests stay as they are. *)
Lemma grows_None h h' :
  grows None h h' → textures h' = textures h ∧ loading h' = loading h.
Proof. induction 1 as [| |h h' x cb Hx _ _]; [done|done|discriminate]. Qed.

(** Objects that exist are not touched; requests are only appended. *)
Lemma grows_old_textures u h h' t :
  grows u h h' → (t < next_obj h)%nat → textures h' !! t = textures h !! t.
Proof.
  induction 1 as [|h h' d _ IH|h h' x cb _ Hg IH]; intros Ht; [done|by apply IH|].
  cbn. pose proof (grows_next_obj _ _ _ Hg).
  rewrite lookup_insert_ne by lia. by apply IH.
Qed.

Lemma grows_loading u h h' : grows u h h' → loading h `prefix_of` loading h'.
Proof.
  induction 1 as [|h h' d _ IH|h h' x cb _ _ IH]; [done|exact IH|].
  cbn. by apply prefix_app_r.
Qed.

Lemma grows_heap_ok u h h' :
  grows u h h' → (∀ x, u = Some x → is_file_url h x) → heap_ok h → heap_ok h'.
Proof.
  intros Hg Hu Hok. induction Hg as [|h h' d Hg IH|h h' x cb Hx Hg IH]; [exact Hok| |].
  - destruct (IH Hu Hok) as [Hurls Htex Hload]. split; cbn.
    + exact Hurls.
    + intros t tex Ht. destruct (Htex t tex Ht). split; [lia|done].
    + exact Hload.
  - destruct (IH Hu Hok) as [Hurls Htex Hload].
    destruct (grows_urls _ _ _ Hg) as [_ Hsame]. split; cbn.
    + exact Hurls.
    + intros t tex. destruct (decide (next_obj h' = t)) as [<-|Hne].
      * rewrite lookup_insert_eq. intros [= <-]. split; [lia|].
        cbn. apply is_file_url_same with h; [done|]. by apply Hu.
      * rewrite lookup_insert_ne by done. intros Ht.
        destruct (Htex t tex Ht). split; [lia|done].
    + intros t cb' [Hin|Hin]%elem_of_app.
      * destruct (Hload t cb' Hin) as (tex & Ht & Himg).
        destruct (Htex t tex Ht) as [Hlt _].
        exists tex. rewrite lookup_insert_ne by lia. done.
      * apply list_elem_of_singleton in Hin as [= -> ->].
        eexists. rewrite lookup_insert_eq. done.
Qed.

Lemma grows_loaded u h h' t :
  grows u h h' → heap_ok h → loaded h t = true → loaded h' t = true.
Proof.
  intros Hg Hok. unfold loaded.
  destruct (textures h !! t) as [tex|] eqn:Ht; [|discriminate].
  destruct (ok_textures h Hok t tex Ht) as [Hlt _].
  by rewrite (grows_old_textures _ _ _ _ Hg Hlt), Ht.
Qed.

Lemma grows_newMaterial u d h : grows u h (newMaterial d h).2.
Proof. apply grows_material, grows_refl. Qed.

Lemma grows_textureLoad x cb h : grows (Some x) h (textureLoad x cb h).2.
Proof. by apply grows_texture; [|apply grows_refl]. Qed.

Lemma grows_ret {A} u (a : A) h : grows u h (ret a h).2.
Proof. apply grows_refl. Qed.

Create HintDb grow discriminated.
#[local] Hint Resolve grows_newMaterial grows_textureLoad grows_ret : grow.
#[local] Hint Extern 2 (grows _ _ (bind _ _ _).2) => apply grows_bind; [|intros ? ?] : grow.
#[local] Hint Extern 3 (grows _ _ ((match ?x with _ => _ end) _).2) => destruct x : grow.

(** The preview's array is built without any request. *)
Lemma grows_previewMaterials u tex sc bm h : grows u h (previewMaterials tex sc bm h).2.
Proof. apply grows_weaken. unfold previewMaterials. auto 20 with grow. Qed.

Lemma grows_exportMaterials url sc bm h : grows url h (exportMaterials url sc bm h).2.
Proof. unfold exportMaterials, exportImageMaterial. auto 20 with grow. Qed.

#[local] Hint Resolve grows_previewMaterials : grow.

Lemma grows_renderBox a u b h : grows (Some u) h (renderBox a u b h).2.
Proof. unfold renderBox. auto 20 with grow. Qed.

(** A re-render for the image the effect already ran for requests
    nothing. *)
Lemma grows_renderBox_same_image a b h :
  grows None h (renderBox a (effect_image b) (Some b) h).2.
Proof.
  unfold renderBox. rewrite (decide_True (P := effect_image b = effect_image b)) by done.
  auto 20 with grow.
Qed.

(** What a render leaves in the hooks: the ref as it was, the image it
    ran for, and the dependencies of this render. *)
Lemma renderBox_hooks a u b h :
  let r := (renderBox a u b h).1 in
  effect_image r = u ∧
  texture_current r = b ≫= texture_current ∧
  memo_deps r = (b ≫= texture_current, sideColor a, backMode a).
Proof.
  unfold renderBox, bind. destruct b as [b|].
  - destruct (decide _); [|destruct (previewMaterials _ _ _ h)];
      destruct (decide (u = effect_image b)); cbn; done.
  - destruct (previewMaterials None (sideColor a) (backMode a) h). cbn. done.
Qed.

(** ** Object URLs under [createObjectURL] *)

Lemma createObjectURL_keeps h blob k v :
  nothing_released h → object_urls h !! k = Some v →
  object_urls (createObjectURL blob h).2 !! k = Some v.
Proof.
  intros [Hfresh _] Hk.
  change (object_urls (createObjectURL blob h).2) with (<[next_url h := blob]> (object_urls h)).
  assert (next_url h ≠ k) as Hne.
  { intros <-. rewrite Hfresh in Hk by lia. discriminate. }
  unfold Url. by rewrite lookup_insert_ne by exact Hne.
Qed.

Lemma createObjectURL_heap_ok h blob : heap_ok h → heap_ok (createObjectURL blob h).2.
Proof.
  intros [Hurls Htex Hload]. split.
  - destruct Hurls as [Hfresh Hsize]. unfold createObjectURL, Url. split.
    + intros k Hk. simpl in *. rewrite lookup_insert_ne by lia. apply Hfresh. lia.
    + simpl. rewrite map_size_insert_None by (apply Hfresh; lia). by rewrite Hsize.
  - intros t tex Ht. destruct (Htex t tex Ht) as [Hlt (name & bytes & Hu)].
    split; [exact Hlt|]. exists name, bytes. by apply createObjectURL_keeps.
  - exact Hload.
Qed.

Lemma createObjectURL_file_url h blob u :
  nothing_released h → is_file_url h u → is_file_url (createObjectURL blob h).2 u.
Proof. intros Hn (name & bytes & Hu). exists name, bytes. by apply createObjectURL_keeps. Qed.

Lemma createObjectURL_download_ok h blob d :
  nothing_released h → download_ok h d → download_ok (createObjectURL blob h).2 d.
Proof.
  intros Hn [Hname (bytes & Hd)]. split; [exact Hname|].
  exists bytes. by apply createObjectURL_keeps.
Qed.

Lemma download_ok_same h h' d :
  object_urls h' = object_urls h → download_ok h d → download_ok h' d.
Proof. unfold download_ok. by intros ->. Qed.

(** ** The invariant of the event loop *)

(** Reduces the projections of worlds and heaps that are written out. *)
Ltac fields :=
  cbn [heap box app downloads parse_calls awaiting
       next_obj textures loading next_url object_urls
       texture_current effect_image memo_deps materials
       imageUrl extrusion sideColor backMode fst snd] in *.

Lemma rerender_ok a w :
  heap_ok (heap w) →
  (∀ u, imageUrl a = Some u → is_file_url (heap w) u) →
  (is_Some (box w) → is_Some (imageUrl a)) →
  (∀ b, box w = Some b → memo_consistent b) →
  (∀ b t, box w = Some b → texture_current b = Some t → loaded (heap w) t = true) →
  Forall (download_ok (heap w)) (downloads w) →
  world_ok (rerender a w).
Proof.
  intros Hok Hfile Hbox Hmemo Href Hdl. unfold rerender.
  destruct (imageUrl a) as [u|] eqn:Hu.
  - pose proof (grows_renderBox a u (box w) (heap w)) as Hg.
    destruct (renderBox_hooks a u (box w) (heap w)) as (He & Htc & Hdeps).
    pose proof (renderBox_memo_consistent a u (box w) (heap w) Hmemo) as Hm.
    destruct (renderBox a u (box w) (heap w)) as [b' h']. fields.
    destruct (grows_urls _ _ _ Hg) as [_ Hsame].
    assert (∀ t, b' .(texture_current) = Some t → loaded h' t = true) as Href'.
    { intros t Ht. rewrite Htc in Ht.
      destruct (box w) as [b0|] eqn:Hb; [|discriminate]. cbn in Ht.
      eapply grows_loaded; [exact Hg|exact Hok|]. by eapply Href. }
    split; fields.
    + eapply grows_heap_ok; [exact Hg| |exact Hok].
      intros x [= <-]. by apply Hfile.
    + intros u' Hu'. rewrite Hu in Hu'. injection Hu' as <-.
      apply is_file_url_same with (heap w); [exact Hsame|]. by apply Hfile.
    + rewrite Hu. exact He.
    + intros b [= <-]. split; [exact Hm|]. by rewrite Hdeps.
    + intros b t [= <-]. apply Href'.
    + intros b t [= <-] Ht. apply Href'. rewrite Hdeps in Ht. cbn in Ht. by rewrite Htc.
    + eapply Forall_impl; [exact Hdl|]. intros d. by apply download_ok_same.
  - assert (box w = None) as Hnone.
    { destruct (box w) as [b|]; [|done].
      destruct (Hbox ltac:(by eexists)) as [? [=]]. }
    split; fields; rewrite ?Hnone, ?Hu; done.
Qed.

Lemma registered_elem t cb queue : registered t queue = Some cb → (t, cb) ∈ queue.
Proof.
  induction queue as [|[i cb'] queue IH]; [discriminate|].
  cbn [registered]. destruct (decide (i = t)) as [->|_].
  - intros [= ->]. left.
  - intros H. right. by apply IH.
Qed.

Lemma registered_filter_eq t queue : registered t (filter (λ p, p.1 ≠ t) queue) = None.
Proof.
  induction queue as [|[i cb] queue IH]; [reflexivity|].
  rewrite filter_cons. cbn [fst].
  destruct (decide (i ≠ t)) as [Hi|Hi]; [|exact IH].
  cbn [registered]. by rewrite decide_False.
Qed.

(** A heap whose texture [t] is updated in place stays well formed, as
    long as the update keeps the source and the queue only shrinks to
    requests that the update leaves without an image. *)
Lemma heap_ok_alter h f t queue :
  heap_ok h →
  (∀ tex, tex_src (f tex) = tex_src tex) →
  (∀ t' cb, (t', cb) ∈ queue →
            (t', cb) ∈ loading h ∧ (t' ≠ t ∨ ∀ tex, tex_image (f tex) = tex_image tex)) →
  heap_ok (mkHeap (next_obj h) (alter f t (textures h)) queue (next_url h) (object_urls h)).
Proof.
  intros [Hurls Htex Hload] Hsrc Hqueue. split; fields.
  - exact Hurls.
  - intros t' tex'. destruct (decide (t = t')) as [->|Hne].
    + rewrite lookup_alter_eq. intros (tex & Ht & ->)%fmap_Some.
      rewrite Hsrc. by apply Htex.
    + rewrite lookup_alter_ne by done. apply Htex.
  - intros t' cb Hin. destruct (Hqueue t' cb Hin) as [Hold Hcase].
    destruct (Hload t' cb Hold) as (tex & Ht & Himg).
    destruct (decide (t = t')) as [->|Hne].
    + destruct Hcase as [?|Hkeep]; [done|].
      exists (f tex). rewrite lookup_alter_eq, Ht. split; [done|]. by rewrite Hkeep.
    + exists tex. by rewrite lookup_alter_ne.
Qed.

Lemma loaded_alter h f t queue t' :
  (∀ tex, is_Some (tex_image tex) → is_Some (tex_image (f tex))) →
  loaded h t' = true →
  loaded (mkHeap (next_obj h) (alter f t (textures h)) queue (next_url h) (object_urls h)) t'
  = true.
Proof.
  intros Hf. unfold loaded. fields.
  destruct (decide (t = t')) as [->|Hne].
  - rewrite lookup_alter_eq. destruct (textures h !! t') as [tex|]; [|done]. cbn.
    intros H%bool_decide_eq_true. by apply bool_decide_eq_true, Hf.
  - by rewrite lookup_alter_ne.
Qed.

Lemma settle_heap_ok ok t h : heap_ok h → heap_ok (settle ok t h).
Proof.
  intros Hok. unfold settle. destruct ok.
  - apply heap_ok_alter; [exact Hok|done|].
    intros t' cb [Hne Hin]%list_elem_of_filter. cbn in Hne. auto.
  - destruct Hok as [Hurls Htex Hload]. split; fields; [done|done|].
    intros t' cb [_ Hin]%list_elem_of_filter. exact (Hload t' cb Hin).
Qed.

Lemma settle_loaded ok t h t' : loaded h t' = true → loaded (settle ok t h) t' = true.
Proof.
  unfold settle. destruct ok; [|done].
  apply loaded_alter. intros tex _. by eexists.
Qed.

(** A request that completes successfully leaves its texture with an
    image. *)
Lemma settle_loads t cb h :
  heap_ok h → request h t = Some cb → loaded (settle true t h) t = true.
Proof.
  intros Hok Hr. apply registered_elem in Hr.
  destruct (ok_loading h Hok t cb Hr) as (tex & Ht & _).
  unfold loaded, settle. fields. by rewrite lookup_alter_eq, Ht.
Qed.

Lemma createObjectURL_spec h blob :
  (createObjectURL blob h).1 = next_url h ∧
  object_urls (createObjectURL blob h).2 !! next_url h = Some blob ∧
  next_obj (createObjectURL blob h).2 = next_obj h ∧
  textures (createObjectURL blob h).2 = textures h ∧
  loading (createObjectURL blob h).2 = loading h.
Proof.
  repeat split. unfold createObjectURL, Url. simpl. by rewrite lookup_insert_eq.
Qed.

Lemma loaded_same h h' t : textures h' = textures h → loaded h' t = loaded h t.
Proof. unfold loaded. by intros ->. Qed.

Lemma step_world_ok e w : world_ok w → world_ok (step e w).
Proof.
  intros Hw. pose proof Hw as [Hok Himg Hbox Hmemo Href Hmt Hdl].
  assert (is_Some (box w) → is_Some (imageUrl (app w))) as Hmounted.
  { intros [b Hb]. rewrite Hb in Hbox. destruct (imageUrl (app w)); [by eexists|done]. }
  destruct e as [[|f fs]| v | c | m | | t | t | gltf]; cbn [step handleFile].
  - exact Hw.
  - pose proof (createObjectURL_heap_ok (heap w)
                  (FileBlob (file_name f) (file_bytes f)) Hok) as Hok1.
    destruct (createObjectURL_spec (heap w) (FileBlob (file_name f) (file_bytes f)))
      as (Hu & Hnew & _ & Htex & _).
    pose proof (λ d, createObjectURL_download_ok (heap w)
                       (FileBlob (file_name f) (file_bytes f)) d (ok_urls _ Hok)) as Hdl1.
    destruct (createObjectURL _ (heap w)) as [u h1]. fields. subst u.
    apply rerender_ok; fields.
    + exact Hok1.
    + intros u [= <-]. by eexists _, _.
    + by eexists.
    + intros b Hb. by apply Hmemo.
    + intros b t Hb Ht. rewrite (loaded_same _ _ _ Htex). eauto.
    + eapply Forall_impl; [exact Hdl|exact Hdl1].
  - apply rerender_ok; fields; try done. intros b Hb. by apply Hmemo.
  - apply rerender_ok; fields; try done. intros b Hb. by apply Hmemo.
  - apply rerender_ok; fields; try done. intros b Hb. by apply Hmemo.
  - destruct (imageUrl (app w)) as [u|] eqn:Hu; [|exact Hw].
    unfold handleDownload. rewrite Hu.
    pose proof (grows_exportMaterials (Some u) (sideColor (app w)) (backMode (app w)) (heap w))
      as Hg.
    destruct (exportMaterials _ _ _ _) as [ms h']. fields.
    destruct (grows_urls _ _ _ Hg) as [_ Hsame].
    split; fields.
    + eapply grows_heap_ok; [exact Hg| |exact Hok]. intros x [= <-]. by apply Himg.
    + intros u' Hu'. apply is_file_url_same with (heap w); [exact Hsame|].
      apply Himg. congruence.
    + rewrite Hu. exact Hbox.
    + exact Hmemo.
    + intros b t Hb Ht. eapply grows_loaded; [exact Hg|exact Hok|]. eauto.
    + intros b t Hb Ht. eapply grows_loaded; [exact Hg|exact Hok|]. eauto.
    + eapply Forall_impl; [exact Hdl|]. intros d. by apply download_ok_same.
  - destruct (request (heap w) t) as [[|]|] eqn:Hr; [| |exact Hw].
    + pose proof (settle_heap_ok true t _ Hok) as Hok1.
      pose proof (settle_loads t _ _ Hok Hr) as Hloaded.
      unfold storeInRef, with_heap. fields. split; fields.
      * apply heap_ok_alter; [exact Hok1|done|]. intros t' cb Hin. split; [exact Hin|by right].
      * exact Himg.
      * destruct (box w); exact Hbox.
      * intros b Hb. destruct (box w) as [b0|]; [|discriminate].
        injection Hb as <-. exact (Hmemo b0 eq_refl).
      * intros b t' Hb. destruct (box w) as [b0|]; [|discriminate].
        injection Hb as <-. intros [= <-]. by apply loaded_alter.
      * intros b t' Hb. destruct (box w) as [b0|] eqn:Hb0; [|discriminate].
        injection Hb as <-. intros Ht'. apply loaded_alter; [done|].
        apply settle_loaded. eauto.
      * exact Hdl.
    + unfold with_heap. split; fields.
      * by apply settle_heap_ok.
      * exact Himg.
      * exact Hbox.
      * exact Hmemo.
      * intros b t' Hb Ht'. apply settle_loaded. eauto.
      * intros b t' Hb Ht'. apply settle_loaded. eauto.
      * exact Hdl.
  - destruct (request (heap w) t) as [cb|] eqn:Hr; [|exact Hw].
    unfold with_heap. split; fields.
    + by apply settle_heap_ok.
    + exact Himg.
    + exact Hbox.
    + exact Hmemo.
    + intros b t' Hb Ht'. apply settle_loaded. eauto.
    + intros b t' Hb Ht'. apply settle_loaded. eauto.
    + exact Hdl.
  - destruct (awaiting w) as [|n]; [exact Hw|]. unfold onParsed. fields.
    set (content := match gltf with ArrayBuffer bytes => bytes | JsonValue text => text end).
    pose proof (createObjectURL_heap_ok (heap w) (OctetStream content) Hok) as Hok1.
    destruct (createObjectURL_spec (heap w) (OctetStream content))
      as (Hu & Hnew & _ & Htex & _).
    pose proof (λ d, createObjectURL_download_ok (heap w) (OctetStream content) d
                       (ok_urls _ Hok)) as Hdl1.
    pose proof (λ u, createObjectURL_file_url (heap w) (OctetStream content) u
                       (ok_urls _ Hok)) as Hfile1.
    destruct (createObjectURL _ (heap w)) as [url h1]. fields. subst url.
    split; fields.
    + exact Hok1.
    + intros u Hu. by apply Hfile1, Himg.
    + exact Hbox.
    + exact Hmemo.
    + intros b t Hb Ht. rewrite (loaded_same _ _ _ Htex). eauto.
    + intros b t Hb Ht. rewrite (loaded_same _ _ _ Htex). eauto.
    + apply Forall_app. split.
      * eapply Forall_impl; [exact Hdl|exact Hdl1].
      * constructor; [|constructor]. split; [reflexivity|]. by eexists.
Qed.

Lemma initial_world_ok : world_ok initial_world.
Proof.
  split; cbn; try done.
  - split; cbn; [|done|].
    + split; [intros k _; apply lookup_empty|reflexivity].
    + intros t cb Hin. by apply elem_of_nil in Hin.
Qed.

Lemma run_world_ok es w : world_ok w → world_ok (run es w).
Proof.
  intros Hw. induction es as [|e es IH] using rev_ind; [exact Hw|].
  rewrite run_snoc. by apply step_world_ok.
Qed.

Lemma reachable_ok es : world_ok (run es initial_world).
Proof. apply run_world_ok, initial_world_ok. Qed.

(** ** The download button and the image *)

Lemma step_image_kept e w :
  is_Some (imageUrl (app w)) → is_Some (imageUrl (app (step e w))).
Proof.
  intros Hu.
  destruct e as [[|f fs]| v | c | m | | t | t | gltf]; cbn [step handleFile].
  - exact Hu.
  - unfold createObjectURL.
    match goal with |- context [rerender ?a ?w'] =>
      destruct (rerender_frame a w') as (-> & _) end.
    by eexists.
  - destruct (rerender_frame (mkApp (imageUrl (app w)) v (sideColor (app w)) (backMode (app w))) w)
      as (-> & _). exact Hu.
  - destruct (rerender_frame (mkApp (imageUrl (app w)) (extrusion (app w)) c (backMode (app w))) w)
      as (-> & _). exact Hu.
  - destruct (rerender_frame (mkApp (imageUrl (app w)) (extrusion (app w)) (sideColor (app w)) m) w)
      as (-> & _). exact Hu.
  - destruct Hu as [u Hu]. rewrite Hu. unfold handleDownload.
    destruct (exportMaterials _ _ _ _). cbn. rewrite Hu. by eexists.
  - destruct (request (heap w) t) as [[|]|]; exact Hu.
  - destruct (request (heap w) t); exact Hu.
  - destruct (awaiting w); exact Hu.
Qed.

(** X1. Once an image is set, no event takes it away: [imageUrl] is only
    ever assigned an object URL, so the download button, enabled by the
    first upload, stays enabled. *)
Theorem download_stays_enabled (w : World) (u : Url) (es : list Event) :
  imageUrl (app w) = Some u → is_Some (imageUrl (app (run es w))).
Proof.
  intros Hu. induction es as [|e es IH] using rev_ind; [by eexists|].
  rewrite run_snoc. by apply step_image_kept.
Qed.

Lemma download_stays_enabled_witness :
  is_Some (imageUrl (app (run [ImageFailed 3; ChangeFile []; ClickDownload;
                               ExportDone (JsonValue sample_json)]
                              (run [ChangeFile [fileA]] initial_world)))).
Proof.
  apply (download_stays_enabled (run [ChangeFile [fileA]] initial_world) 0).
  reflexivity.
Defined.

Lemma uploads_snoc es e :
  uploads (es ++ [e]) = (uploads es + (if is_upload e then 1 else 0))%nat.
Proof.
  unfold uploads. rewrite filter_app, length_app. f_equal.
  rewrite filter_cons, filter_nil. destruct (is_upload e); reflexivity.
Qed.

(** X2. As long as no file has been chosen the program does nothing but
    remember the settings: no preview instance, no texture, no request,
    no object URL, no exporter call and no download, whatever is clicked
    or changed. *)
Theorem nothing_happens_without_upload (es : list Event) :
  uploads es = 0%nat →
  let w := run es initial_world in
  imageUrl (app w) = None ∧ box w = None ∧ heap w = empty_heap ∧
  parse_calls w = [] ∧ awaiting w = 0%nat ∧ downloads w = [].
Proof.
  induction es as [|e es IH] using rev_ind; [done|].
  rewrite uploads_snoc. intros Hup. rewrite run_snoc.
  destruct IH as (Hi & Hb & Hh & Hp & Ha & Hd); [lia|].
  set (w := run es initial_world) in *. cbv zeta.
  destruct e as [[|f fs]| v | c | m | | t | t | gltf]; cbn [step handleFile];
    first [ done
          | cbn in Hup; lia
          | unfold rerender; cbn [imageUrl]; rewrite Hi; cbn; done
          | rewrite Hi; done
          | rewrite Hh; cbn; done
          | rewrite Ha; done ].
Qed.

Lemma nothing_happens_without_upload_witness :
  let w := run [ChangeSideColor "#ff0000"; ClickDownload; ImageLoaded 0;
                ChangeBackMode "color"; ExportDone (ArrayBuffer short_buffer)]
               initial_world in
  imageUrl (app w) = None ∧ box w = None ∧ heap w = empty_heap ∧
  parse_calls w = [] ∧ awaiting w = 0%nat ∧ downloads w = [].
Proof.
  apply (nothing_happens_without_upload
           [ChangeSideColor "#ff0000"; ClickDownload; ImageLoaded 0;
            ChangeBackMode "color"; ExportDone (ArrayBuffer short_buffer)]).
  reflexivity.
Defined.

(** X3. The preview instance is mounted exactly while an image is set,
    and the image its effect last ran for is the application's image. *)
Theorem preview_mounted_for_current_image (es : list Event) :
  effect_image <$> box (run es initial_world) = imageUrl (app (run es initial_world)).
Proof.
  pose proof (wok_box _ (reachable_ok es)) as Hbox.
  destruct (box _) as [b|], (imageUrl _) as [u|]; cbn; try done.
  by rewrite Hbox.
Qed.

(** ** What a render requests and what it recomputes *)

Lemma rerender_Some a u w :
  imageUrl a = Some u →
  box (rerender a w) = Some (renderBox a u (box w) (heap w)).1 ∧
  heap (rerender a w) = (renderBox a u (box w) (heap w)).2.
Proof. intros Hu. unfold rerender. rewrite Hu. by destruct (renderBox _ _ _ _). Qed.

(** A render for an image the effect has not run for: whatever the memo
    does, exactly one request follows it. *)
Lemma renderBox_new_image a u b h :
  (∀ b0, b = Some b0 → effect_image b0 ≠ u) →
  ∃ h1, grows None h h1 ∧ (renderBox a u b h).2 = (textureLoad u StoreInRef h1).2.
Proof.
  intros Hne. unfold renderBox. destruct b as [b0|].
  - rewrite (decide_False (P := u = effect_image b0))
      by (intros ->; by apply (Hne b0)).
    destruct (decide _).
    + exists h. split; [constructor|reflexivity].
    + exists (previewMaterials (texture_current b0) (sideColor a) (backMode a) h).2.
      split; [apply grows_previewMaterials|].
      unfold bind. by destruct (previewMaterials _ _ _ h).
  - exists (previewMaterials None (sideColor a) (backMode a) h).2.
    split; [apply grows_previewMaterials|].
    unfold bind. by destruct (previewMaterials _ _ _ h).
Qed.

Lemma file_url_below h u : nothing_released h → is_file_url h u → u ≠ next_url h.
Proof.
  intros [Hfresh _] (name & bytes & Hu) ->. rewrite Hfresh in Hu by lia. discriminate.
Qed.

(** X4. Every upload starts exactly one decode for the preview: the new
    object URL becomes the image, and one request for a texture of that
    URL, with the closure that stores it in the ref, joins the queue.  The
    textures and requests that were there stay. *)
Theorem upload_requests_one_decode (es : list Event) (f : File) (fs : list File) :
  let w := run es initial_world in
  let w' := step (ChangeFile (f :: fs)) w in
  let u := next_url (heap w) in
  imageUrl (app w') = Some u ∧
  ∃ t, (next_obj (heap w) ≤ t)%nat ∧
       loading (heap w') = (loading (heap w) ++ [(t, StoreInRef)])%list ∧
       textures (heap w') = <[t := pending_texture u]> (textures (heap w)).
Proof.
  intros w w' u. subst w'. pose proof (reachable_ok es) as Hw. fold w in Hw.
  cbn [step handleFile]. unfold createObjectURL. fold u.
  set (a := mkApp (Some u) _ _ _). set (w1 := mkWorld _ _ _ _ _ _).
  destruct (rerender_frame a w1) as (Happ & _).
  destruct (rerender_Some a u w1 eq_refl) as [_ Hheap].
  rewrite Happ, Hheap. split; [reflexivity|].
  destruct (renderBox_new_image a u (box w1) (heap w1)) as (h1 & Hg & ->).
  { intros b0 Hb0. subst w1. fields.
    pose proof (wok_box _ Hw) as Hbox. rewrite Hb0 in Hbox.
    destruct (imageUrl (app w)) as [u0|] eqn:Hu0; [|done]. subst u0.
    apply file_url_below; [apply Hw|]. by apply (wok_image _ Hw). }
  destruct (grows_None _ _ Hg) as [Htex Hload].
  pose proof (grows_next_obj _ _ _ Hg) as Hn.
  exists (next_obj h1). subst w1. fields.
  split; [exact Hn|]. cbn. rewrite Htex, Hload. done.
Qed.

Lemma rerender_same_image a w :
  world_ok w → imageUrl a = imageUrl (app w) → grows None (heap w) (heap (rerender a w)).
Proof.
  intros Hw Ha. pose proof (wok_box _ Hw) as Hbox.
  destruct (imageUrl (app w)) as [u|] eqn:Hu.
  - destruct (rerender_Some a u w Ha) as [_ ->].
    destruct (box w) as [b|]; [|done]. subst u. apply grows_renderBox_same_image.
  - unfold rerender. rewrite Ha. constructor.
Qed.

(** X5. Changing the depth, the side colour or the back mode never
    starts a decode and never touches a texture or an object URL: the
    effect is keyed on the image alone. *)
Theorem controls_request_no_decode (es : list Event) (v : Z) (c m : string) :
  let w := run es initial_world in
  Forall (λ e, textures (heap (step e w)) = textures (heap w) ∧
               loading (heap (step e w)) = loading (heap w) ∧
               object_urls (heap (step e w)) = object_urls (heap w))
         [ChangeExtrusion v; ChangeSideColor c; ChangeBackMode m].
Proof.
  intros w. pose proof (reachable_ok es) as Hw. fold w in Hw.
  repeat (apply Forall_cons; split); try apply Forall_nil_2; cbn [step].
  all: match goal with |- context [rerender ?a ?w0] =>
         pose proof (rerender_same_image a w0 Hw eq_refl) as Hg end.
  all: destruct (grows_None _ _ Hg) as [-> ->].
  all: destruct (grows_urls _ _ _ Hg) as [_ ->]; done.
Qed.

(** X6. A change of the depth alone, with the memo's texture up to date,
    leaves the preview instance and the heap exactly as they were: the
    same six material objects, nothing constructed, nothing requested.
    Only [extrusion] differs. *)
Theorem depth_change_keeps_materials (es : list Event) (b : BoxInstance) (v : Z) :
  let w := run es initial_world in
  box w = Some b →
  (memo_deps b).1.1 = texture_current b →
  step (ChangeExtrusion v) w =
    mkWorld (mkApp (imageUrl (app w)) v (sideColor (app w)) (backMode (app w)))
            (Some b) (heap w) (parse_calls w) (awaiting w) (downloads w).
Proof.
  intros w Hb Htex. pose proof (reachable_ok es) as Hw. fold w in Hw.
  pose proof (wok_box _ Hw) as Hbox. rewrite Hb in Hbox.
  destruct (wok_memo _ Hw b Hb) as (_ & Hsc & Hbm).
  destruct (imageUrl (app w)) as [u|] eqn:Hu; [|done].
  cbn [step]. unfold rerender. rewrite Hu. cbn [imageUrl]. rewrite Hb.
  unfold renderBox. cbn [sideColor backMode]. subst u.
  assert (memo_deps b = (texture_current b, sideColor (app w), backMode (app w))) as Hdeps.
  { destruct (memo_deps b) as [[x y] z]. cbn in *. congruence. }
  rewrite decide_True by done. rewrite decide_True by done.
  cbn. rewrite <- Hdeps. by destruct b.
Qed.

Lemma depth_change_keeps_materials_witness :
  let w := run [ChangeFile [fileA]; ImageLoaded 3; ChangeSideColor "#000000"] initial_world in
  ∃ b, box w = Some b ∧
       step (ChangeExtrusion 90) w =
         mkWorld (mkApp (imageUrl (app w)) 90 (sideColor (app w)) (backMode (app w)))
                 (Some b) (heap w) (parse_calls w) (awaiting w) (downloads w).
Proof.
  eexists. split; [reflexivity|].
  apply (depth_change_keeps_materials
           [ChangeFile [fileA]; ImageLoaded 3; ChangeSideColor "#000000"]);
    reflexivity.
Defined.

Lemma rerender_table a w :
  (∀ b, box w = Some b → memo_consistent b) →
  (imageUrl a = None → box w = None) →
  match box (rerender a w) with
  | Some b' =>
      texture_current b' = active_texture w ∧
      descriptors (materials b')
      = MaterialAssigner_table (active_texture w) (sideColor a) (backMode a)
  | None => imageUrl a = None
  end.
Proof.
  intros Hmemo Hnone. destruct (imageUrl a) as [u|] eqn:Hu.
  - destruct (rerender_Some a u w Hu) as [-> _].
    destruct (renderBox_hooks a u (box w) (heap w)) as (_ & Htc & Hdeps).
    pose proof (renderBox_memo_consistent a u (box w) (heap w) Hmemo) as Hm.
    unfold memo_consistent in Hm. rewrite Hdeps in Hm.
    split; [exact Htc|exact Hm].
  - unfold rerender. rewrite Hu. cbn. by rewrite (Hnone eq_refl).
Qed.

(** X7. After every event that sets state, the preview's array is the
    table's row for the texture in the ref, the side colour and the back
    mode as they are now: the memo never hands back an array computed for
    other values of its dependencies. *)
Theorem render_uses_current_texture (es : list Event) (v : Z) (c m : string)
    (f : File) (fs : list File) :
  let w := run es initial_world in
  Forall (λ e, match box (step e w) with
               | Some b' =>
                   texture_current b' = active_texture w ∧
                   descriptors (materials b')
                   = MaterialAssigner_table (active_texture w)
                       (sideColor (app (step e w))) (backMode (app (step e w)))
               | None => imageUrl (app (step e w)) = None
               end)
         [ChangeExtrusion v; ChangeSideColor c; ChangeBackMode m; ChangeFile (f :: fs)].
Proof.
  intros w. pose proof (reachable_ok es) as Hw. fold w in Hw.
  assert (∀ b, box w = Some b → memo_consistent b) as Hmemo
    by (intros b Hb; by apply (wok_memo _ Hw)).
  assert (imageUrl (app w) = None → box w = None) as Hnone.
  { intros Hu. pose proof (wok_box _ Hw) as Hbox. rewrite Hu in Hbox.
    by destruct (box w). }
  repeat (apply Forall_cons; split); try apply Forall_nil_2;
    cbn [step handleFile]; unfold createObjectURL.
  all: match goal with |- context [rerender ?a ?w0] =>
         destruct (rerender_frame a w0) as (-> & _);
         apply (rerender_table a w0); fields; done end.
Qed.

(** X8. The completion of a decode does not re-render: the closure writes
    the ref, and the instance keeps the material array and the memo
    dependencies it had.  The preview shows the new texture only after the
    next state change. *)
Theorem load_completion_does_not_rerender (w : World) (b : BoxInstance) (t : nat) :
  box w = Some b →
  ∃ b', box (step (ImageLoaded t) w) = Some b' ∧
        materials b' = materials b ∧
        memo_deps b' = memo_deps b ∧
        effect_image b' = effect_image b.
Proof.
  intros Hb. cbn [step].
  destruct (request (heap w) t) as [[|]|]; unfold storeInRef, with_heap; fields;
    rewrite Hb; eexists; (split; [reflexivity|done]).
Qed.

Lemma load_completion_does_not_rerender_witness :
  let w := run [ChangeFile [fileA]] initial_world in
  active_texture (step (ImageLoaded 3) w) = Some 3 ∧
  ∃ b', box (step (ImageLoaded 3) w) = Some b' ∧
        materials b' = (previewMaterials None "#2196f3" "image" empty_heap).1 ∧
        memo_deps b' = (None, "#2196f3", "image") ∧
        effect_image b' = 0.
Proof.
  split; [reflexivity|].
  apply (load_completion_does_not_rerender (run [ChangeFile [fileA]] initial_world)
           (mkBox None 0 (None, "#2196f3", "image")
                  (previewMaterials None "#2196f3" "image" empty_heap).1) 3).
  reflexivity.
Defined.

Lemma table_textures tex sc bm :
  omap mat_map (MaterialAssigner_table tex sc bm) =
    match tex with
    | Some t => if decide (bm = "image") then [t; t] else [t]
    | None => []
    end.
Proof.
  unfold MaterialAssigner_table. destruct tex as [t|]; [|reflexivity].
  destruct (decide (bm = "image")); reflexivity.
Qed.

(** X9. The preview never shows an undecoded texture: in every run, each
    texture its material array refers to, and the texture in its ref, has
    received its image. *)
Theorem preview_textures_are_decoded (es : list Event) (b : BoxInstance) :
  let w := run es initial_world in
  box w = Some b →
  Forall (λ t, loaded (heap w) t = true)
         (referenced_textures (materials b) ++ option_list (texture_current b)).
Proof.
  intros w Hb. pose proof (reachable_ok es) as Hw. fold w in Hw.
  destruct (wok_memo _ Hw b Hb) as (Hm & _).
  pose proof (wok_memo_texture _ Hw b) as Hmt.
  pose proof (wok_ref _ Hw b) as Href.
  apply Forall_app. split.
  - rewrite referenced_textures_descriptors, Hm, table_textures.
    destruct (memo_deps b).1.1 as [t|]; [|constructor].
    specialize (Hmt t Hb eq_refl).
    destruct (decide _); repeat constructor; exact Hmt.
  - destruct (texture_current b) as [t|]; [|constructor].
    repeat constructor. by apply Href.
Qed.

Lemma preview_textures_are_decoded_witness :
  let w := run [ChangeFile [fileA]; ImageLoaded 3; ChangeFile [fileB]; ChangeBackMode "image"]
               initial_world in
  ∃ b, box w = Some b ∧
       referenced_textures (materials b) = [3; 3] ∧
       Forall (λ t, loaded (heap w) t = true)
              (referenced_textures (materials b) ++ option_list (texture_current b)).
Proof.
  eexists. split; [reflexivity|]. split; [reflexivity|].
  apply (preview_textures_are_decoded
           [ChangeFile [fileA]; ImageLoaded 3; ChangeFile [fileB]; ChangeBackMode "image"]).
  reflexivity.
Defined.

Lemma registered_None_filter t queue :
  registered t queue = None → filter (λ p, p.1 ≠ t) queue = queue.
Proof.
  induction queue as [|[i cb] queue IH]; [reflexivity|].
  cbn [registered]. destruct (decide (i = t)) as [->|Hne]; [discriminate|].
  intros Hq. rewrite filter_cons, decide_True by done. by rewrite IH.
Qed.

(** X10. A failed decode is swallowed: the request leaves the queue and
    nothing else changes, neither the application state, nor the preview
    instance with its ref and materials, nor any texture, object URL,
    exporter call or download. *)
Theorem failed_decode_leaves_state (w : World) (t : nat) :
  let w' := step (ImageFailed t) w in
  app w' = app w ∧ box w' = box w ∧
  textures (heap w') = textures (heap w) ∧
  object_urls (heap w') = object_urls (heap w) ∧
  parse_calls w' = parse_calls w ∧ downloads w' = downloads w ∧
  loading (heap w') = filter (λ p, p.1 ≠ t) (loading (heap w)) ∧
  request (heap w') t = None.
Proof.
  cbn [step]. destruct (request (heap w) t) as [cb|] eqn:Hr; cbn.
  - repeat split. apply registered_filter_eq.
  - repeat split; [|exact Hr]. symmetry. by apply registered_None_filter.
Qed.

(** ** Where images, textures and downloads come from *)

(** X11. Every image the program works with is an uploaded file that is
    still in the URL store: the application's image, the source of every
    texture ever requested, and the source of the texture the preview
    holds.  No texture is ever requested from an exported file's URL. *)
Theorem images_and_textures_are_uploads (es : list Event) :
  let w := run es initial_world in
  from_option (is_file_url (heap w)) True (imageUrl (app w)) ∧
  map_Forall (λ _ tex, is_file_url (heap w) (tex_src tex)) (textures (heap w)) ∧
  from_option (is_file_url (heap w)) True (active_source w).
Proof.
  intros w. pose proof (reachable_ok es) as Hw. fold w in Hw.
  pose proof (ok_textures _ (wok_heap _ Hw)) as Htex.
  split; [|split].
  - destruct (imageUrl (app w)) as [u|] eqn:Hu; [|done]. by apply (wok_image _ Hw).
  - intros t tex Ht. by apply (Htex t tex).
  - unfold active_source. destruct (active_texture w) as [t|]; [|done]. cbn.
    destruct (textures (heap w) !! t) as [tex|] eqn:Ht; [|done]. cbn.
    by apply (Htex t tex).
Qed.

(** X12. Every download the program has offered carries the name
    [extruded-image.glb], and its link still leads to the binary content
    it was created for. *)
Theorem downloads_are_named_octet_streams (es : list Event) :
  Forall (download_ok (heap (run es initial_world))) (downloads (run es initial_world)).
Proof. apply (wok_downloads _ (reachable_ok es)). Qed.

Lemma handleDownload_fields w :
  app (handleDownload w) = app w ∧ box (handleDownload w) = box w ∧
  downloads (handleDownload w) = downloads w ∧
  heap (handleDownload w)
  = (exportMaterials (imageUrl (app w)) (sideColor (app w)) (backMode (app w)) (heap w)).2.
Proof. unfold handleDownload. by destruct (exportMaterials _ _ _ _). Qed.

(** X13. An export does not disturb the preview: a click on the download
    button leaves the application state, the preview instance, the
    downloads and the URL store as they are, keeps every texture and every
    request in flight, and adds its own requests behind them, two with the
    back in image mode and one otherwise. *)
Theorem export_leaves_preview_alone (es : list Event) :
  let w := run es initial_world in
  let w' := step ClickDownload w in
  app w' = app w ∧ box w' = box w ∧ downloads w' = downloads w ∧
  object_urls (heap w') = object_urls (heap w) ∧
  textures (heap w) ⊆ textures (heap w') ∧
  loading (heap w) `prefix_of` loading (heap w') ∧
  length (loading (heap w')) =
    (length (loading (heap w)) +
     match imageUrl (app w) with
     | Some _ => if decide (backMode (app w) = "image") then 2 else 1
     | None => 0
     end)%nat.
Proof.
  intros w w'. subst w'. pose proof (reachable_ok es) as Hw. fold w in Hw.
  cbn [step]. destruct (imageUrl (app w)) as [u|] eqn:Hu.
  - destruct (handleDownload_fields w) as (-> & -> & -> & ->). rewrite Hu.
    pose proof (grows_exportMaterials (Some u) (sideColor (app w)) (backMode (app w)) (heap w))
      as Hg.
    destruct (grows_urls _ _ _ Hg) as [_ Hsame].
    repeat split; [exact Hsame| |by eapply grows_loading|].
    + apply map_subseteq_spec. intros t tex Ht.
      destruct (ok_textures _ (wok_heap _ Hw) t tex Ht) as [Hlt _].
      by rewrite (grows_old_textures _ _ _ _ Hg Hlt).
    + destruct (decide (backMode (app w) = "image")) as [->|Hbm].
      * rewrite exportMaterials_image_mode. cbn. rewrite !length_app. cbn. lia.
      * rewrite exportMaterials_other_mode by done. cbn. rewrite length_app. cbn. lia.
  - repeat split; [done|done|lia].
Qed.

Lemma step_url_count e w :
  (next_url (heap (step e w)) + length (downloads w))%nat =
  (next_url (heap w) + (if is_upload e then 1 else 0) + length (downloads (step e w)))%nat.
Proof.
  destruct e as [[|f fs]| v | c | m | | t | t | gltf]; cbn [step handleFile is_upload].
  - lia.
  - unfold createObjectURL.
    match goal with |- context [rerender ?a ?w'] =>
      destruct (rerender_frame a w') as (_ & _ & _ & -> & -> & _) end.
    cbn. lia.
  - destruct (rerender_frame (mkApp (imageUrl (app w)) v (sideColor (app w)) (backMode (app w))) w)
      as (_ & _ & _ & -> & -> & _). lia.
  - destruct (rerender_frame (mkApp (imageUrl (app w)) (extrusion (app w)) c (backMode (app w))) w)
      as (_ & _ & _ & -> & -> & _). lia.
  - destruct (rerender_frame (mkApp (imageUrl (app w)) (extrusion (app w)) (sideColor (app w)) m) w)
      as (_ & _ & _ & -> & -> & _). lia.
  - destruct (imageUrl (app w)); [|lia].
    destruct (handleDownload_fields w) as (_ & _ & -> & ->).
    destruct (keeps_urls_exportMaterials (imageUrl (app w)) (sideColor (app w))
                (backMode (app w)) (heap w)) as [-> _]. lia.
  - destruct (request (heap w) t) as [[|]|]; cbn; lia.
  - destruct (request (heap w) t); cbn; lia.
  - destruct (awaiting w); [lia|]. cbn. rewrite length_app. cbn. lia.
Qed.

(** X14. Object URLs are created by uploads and by finished exports and
    by nothing else, one each: in every run the URL store holds as many
    entries as files were chosen plus downloads were offered. *)
Theorem object_url_count (es : list Event) :
  size (object_urls (heap (run es initial_world)))
  = (uploads es + length (downloads (run es initial_world)))%nat.
Proof.
  destruct (reachable_nothing_released es) as [_ ->].
  induction es as [|e es IH] using rev_ind; [reflexivity|].
  rewrite run_snoc, uploads_snoc.
  pose proof (step_url_count e (run es initial_world)). lia.
Qed.

(** ** The preview between renders *)

Lemma rerender_active a w : active_texture (rerender a w) = active_texture w.
Proof.
  unfold active_texture. destruct (imageUrl a) as [u|] eqn:Hu.
  - destruct (rerender_Some a u w Hu) as [-> _].
    destruct (renderBox_hooks a u (box w) (heap w)) as (_ & Htc & _).
    change (Some (renderBox a u (box w) (heap w)).1 ≫= texture_current)
      with (texture_current (renderBox a u (box w) (heap w)).1).
    exact Htc.
  - unfold rerender. by rewrite Hu.
Qed.

Lemma rerender_grows a w : grows (imageUrl a) (heap w) (heap (rerender a w)).
Proof.
  destruct (imageUrl a) as [u|] eqn:Hu.
  - destruct (rerender_Some a u w Hu) as [_ ->]. apply grows_renderBox.
  - unfold rerender. rewrite Hu. constructor.
Qed.

Lemma active_texture_exists w t :
  world_ok w → active_texture w = Some t → (t < next_obj (heap w))%nat.
Proof.
  intros Hw Ht. unfold active_texture in Ht.
  destruct (box w) as [b|] eqn:Hb; [|discriminate]. cbn in Ht.
  pose proof (wok_ref _ Hw b t Hb Ht) as Hl. unfold loaded in Hl.
  destruct (textures (heap w) !! t) as [tex|] eqn:Htex; [|discriminate].
  by destruct (ok_textures _ (wok_heap _ Hw) t tex Htex).
Qed.

Lemma step_ref_filtered e w : world_ok w → ref_filtered w → ref_filtered (step e w).
Proof.
  intros Hw Hf.
  assert (∀ a h1, textures h1 = textures (heap w) → next_obj h1 = next_obj (heap w) →
          ref_filtered (rerender a (mkWorld (app w) (box w) h1 (parse_calls w)
                                            (awaiting w) (downloads w)))) as Hrender.
  { intros a h1 Htex Hnext t tex. rewrite rerender_active.
    change (active_texture (mkWorld _ _ _ _ _ _)) with (active_texture w).
    intros Ht. pose proof (active_texture_exists w t Hw Ht) as Hlt.
    rewrite (grows_old_textures _ _ _ t (rerender_grows a _)) by (fields; lia).
    fields. rewrite Htex. by apply Hf. }
  destruct e as [[|f fs]| v | c | m | | t | t | gltf]; cbn [step handleFile].
  - exact Hf.
  - unfold createObjectURL. by apply Hrender.
  - destruct w. by apply Hrender.
  - destruct w. by apply Hrender.
  - destruct w. by apply Hrender.
  - destruct (imageUrl (app w)) as [u|] eqn:Hu; [|exact Hf].
    intros t tex. unfold active_texture.
    destruct (handleDownload_fields w) as (_ & -> & _ & ->). rewrite Hu. intros Ht.
    pose proof (active_texture_exists w t Hw Ht) as Hlt.
    rewrite (grows_old_textures _ _ _ t (grows_exportMaterials _ _ _ _)) by exact Hlt.
    by apply Hf.
  - destruct (request (heap w) t) as [[|]|] eqn:Hr; [| |exact Hf].
    + intros t' tex. unfold active_texture, storeInRef, with_heap. fields.
      destruct (box w) as [b|]; [|discriminate]. cbn. intros [= <-].
      rewrite lookup_alter_eq. intros (tex0 & _ & ->)%fmap_Some. reflexivity.
    + intros t' tex. unfold active_texture, with_heap, settle. fields. intros Ht.
      destruct (decide (t = t')) as [->|Hne].
      * rewrite lookup_alter_eq. intros (tex0 & Htex0 & ->)%fmap_Some. cbn.
        by apply (Hf t' tex0).
      * rewrite lookup_alter_ne by done. by apply Hf.
  - destruct (request (heap w) t) as [cb|]; exact Hf.
  - destruct (awaiting w); exact Hf.
Qed.

(** X15. In every run the texture the preview holds in its ref is
    sampled with the linear filter: the load closure sets the filter
    before it stores the texture, and nothing resets it. *)
Theorem preview_texture_is_linear (es : list Event) :
  ref_filtered (run es initial_world).
Proof.
  induction es as [|e es IH] using rev_ind; [intros t tex [=]|].
  rewrite run_snoc. apply step_ref_filtered; [apply reachable_ok|exact IH].
Qed.

(** X16. Whatever has happened since the last render, the preview's
    array is the table's row for the side colour and the back mode as they
    are now; only its texture can be older than the ref. *)
Theorem preview_shows_current_colour_and_mode (es : list Event) (b : BoxInstance) :
  let w := run es initial_world in
  box w = Some b →
  descriptors (materials b)
  = MaterialAssigner_table (memo_deps b).1.1 (sideColor (app w)) (backMode (app w)).
Proof.
  intros w Hb. subst w.
  destruct (wok_memo _ (reachable_ok es) b Hb) as (Hm & Hsc & Hbm).
  rewrite <- Hsc, <- Hbm. exact Hm.
Qed.

Lemma preview_shows_current_colour_and_mode_witness :
  let w := run [ChangeFile [fileA]; ChangeSideColor "#ff0000"; ImageLoaded 3; ClickDownload;
                ImageFailed 10] initial_world in
  ∃ b, box w = Some b ∧
       descriptors (materials b) = MaterialAssigner_table None "#ff0000" "image".
Proof.
  eexists. split; [reflexivity|].
  apply (preview_shows_current_colour_and_mode
           [ChangeFile [fileA]; ChangeSideColor "#ff0000"; ImageLoaded 3; ClickDownload;
            ImageFailed 10]).
  reflexivity.
Defined.
